(** * scripts/fix_compile_commands.py

    A shallow embedding of the script that strips GCC-only flags from
    [build/compile_commands.json], and the properties of it that the
    repository's specification states.

    Part I is the model: Python strings and the [str] methods the script
    calls, the values [json.load] returns, exceptions, the file system and
    the output streams, then the script statement by statement, and the
    vocabulary the statements below are written in.  Part II holds the
    proofs: facts about the string methods and about the loop, then one
    theorem for each property of the specification.  Part III proves
    further properties that the script shows: what becomes of a flag that
    stands as a word of its own, which inputs the loop accepts and what it
    raises on the others, and what a run does to the file system when it
    fails, writes elsewhere or is run twice. *)

From Stdlib Require Import Ascii String DecimalString.
From stdpp Require Import gmap strings list.

Local Open Scope string_scope.
Local Open Scope list_scope.

(** * Part I: the model *)

(** ** Python strings *)

(** A Python [str] is a sequence of Unicode code points. *)
Abbreviation pystr := (list N).

(** A string literal of the script (all of them are ASCII). *)
Definition pystr_of (s : string) : pystr :=
  map N_of_ascii (list_ascii_of_string s).

Module Str.

(** [s.startswith(p)] *)
Fixpoint startswith (p s : pystr) : bool :=
  match p, s with
  | [], _ => true
  | _ :: _, [] => false
  | a :: p', b :: s' => (a =? b)%N && startswith p' s'
  end.

(** [sub in s]: [sub] occurs in [s] at some offset. *)
Fixpoint contains (sub s : pystr) : bool :=
  startswith sub s ||
  match s with
  | [] => false
  | _ :: s' => contains sub s'
  end.

(** The scan of [s.replace(old, new)] for a non-empty [old]: occurrences are
    taken left to right and do not overlap.  [skip] counts the characters of
    the occurrence just matched that are still to be dropped. *)
Fixpoint replace_scan (old new : pystr) (skip : nat) (s : pystr) : pystr :=
  match s with
  | [] => []
  | c :: s' =>
      match skip with
      | S k => replace_scan old new k s'
      | O =>
          if startswith old s
          then new ++ replace_scan old new (length old - 1) s'
          else c :: replace_scan old new 0 s'
      end
  end.

(** [s.replace(old, new)].  With an empty [old], Python puts [new] before
    every character and at the end. *)
Definition replace (old new s : pystr) : pystr :=
  match old with
  | [] => new ++ flat_map (fun c => c :: new) s
  | _ :: _ => replace_scan old new 0 s
  end.

(** [c.isspace()], the characters [s.split()] splits at: CPython's
    [_PyUnicode_IsWhitespace]. *)
Definition isspace (c : N) : bool :=
  ((9 <=? c) && (c <=? 13) || (28 <=? c) && (c <=? 32)
   || (c =? 133) || (c =? 160) || (c =? 5760)
   || (8192 <=? c) && (c <=? 8202)
   || (c =? 8232) || (c =? 8233) || (c =? 8239) || (c =? 8287)
   || (c =? 12288))%N.

(** [s.split()]: the maximal whitespace-free pieces of [s], none empty. *)
Fixpoint split (s : pystr) : list pystr :=
  match s with
  | [] => []
  | c :: s' =>
      if isspace c then split s'
      else
        match s' with
        | [] => [[c]]
        | d :: _ =>
            if isspace d then [c] :: split s'
            else
              match split s' with
              | w :: ws => (c :: w) :: ws
              | [] => [[c]]
              end
        end
  end.

(** [sep.join(ws)] *)
Fixpoint join (sep : pystr) (ws : list pystr) : pystr :=
  match ws with
  | [] => []
  | [w] => w
  | w :: ws' => w ++ sep ++ join sep ws'
  end.

End Str.

(** ** The values [json.load] returns *)

#[local] Unset Elimination Schemes.

(** A [float] is named by its [repr]: that is how [json.dump] writes it, and
    the script never computes with one.  A [dict] keeps its keys in insertion
    order, as Python's does. *)
Inductive pyval : Type :=
| PyNone
| PyBool (b : bool)
| PyInt (z : Z)
| PyFloat (repr : string)
| PyStr (s : pystr)
| PyList (items : list pyval)
| PyDict (fields : list (pystr * pyval)).

#[local] Set Elimination Schemes.

Abbreviation pydict := (list (pystr * pyval)).

(** Induction on a value, with the hypothesis for every item of a [list] and
    every value of a [dict]. *)
Section pyval_induction.
Variable P : pyval -> Prop.
Hypothesis none_case : P PyNone.
Hypothesis bool_case : forall b, P (PyBool b).
Hypothesis int_case : forall z, P (PyInt z).
Hypothesis float_case : forall r, P (PyFloat r).
Hypothesis str_case : forall s, P (PyStr s).
Hypothesis list_case : forall items, Forall P items -> P (PyList items).
Hypothesis dict_case :
  forall fields, Forall (fun kv => P kv.2) fields -> P (PyDict fields).

Fixpoint pyval_ind (v : pyval) : P v :=
  match v with
  | PyNone => none_case
  | PyBool b => bool_case b
  | PyInt z => int_case z
  | PyFloat r => float_case r
  | PyStr s => str_case s
  | PyList items =>
      list_case items
        ((fix all (l : list pyval) : Forall P l :=
            match l with
            | [] => List.Forall_nil P
            | x :: l' => List.Forall_cons P x l' (pyval_ind x) (all l')
            end) items)
  | PyDict fields =>
      dict_case fields
        ((fix all (l : pydict) : Forall (fun kv => P kv.2) l :=
            match l with
            | [] => List.Forall_nil _
            | kv :: l' => List.Forall_cons _ kv l' (pyval_ind kv.2) (all l')
            end) fields)
  end.
End pyval_induction.

(** Structural equality.  For two [str] it is Python's [==]; the script
    compares a [list] or a [dict] only with itself, where [==] holds. *)
Fixpoint pyval_eqb (a b : pyval) : bool :=
  match a, b with
  | PyNone, PyNone => true
  | PyBool x, PyBool y => Bool.eqb x y
  | PyInt x, PyInt y => (x =? y)%Z
  | PyFloat x, PyFloat y => String.eqb x y
  | PyStr x, PyStr y => bool_decide (x = y)
  | PyList xs, PyList ys =>
      (fix all2 (xs ys : list pyval) : bool :=
         match xs, ys with
         | [], [] => true
         | x :: xs', y :: ys' => pyval_eqb x y && all2 xs' ys'
         | _, _ => false
         end) xs ys
  | PyDict xs, PyDict ys =>
      (fix all2 (xs ys : pydict) : bool :=
         match xs, ys with
         | [], [] => true
         | (k, x) :: xs', (l, y) :: ys' =>
             bool_decide (k = l) && pyval_eqb x y && all2 xs' ys'
         | _, _ => false
         end) xs ys
  | _, _ => false
  end.

Module Dict.

(** [d.get(key)]: the value bound to [key], if any. *)
Fixpoint get (key : pystr) (d : pydict) : option pyval :=
  match d with
  | [] => None
  | (k, v) :: d' => if bool_decide (k = key) then Some v else get key d'
  end.

(** [d[key] = v]: an existing key keeps its place, a new one goes last. *)
Fixpoint set (key : pystr) (v : pyval) (d : pydict) : pydict :=
  match d with
  | [] => [(key, v)]
  | (k, x) :: d' =>
      if bool_decide (k = key) then (k, v) :: d' else (k, x) :: set key v d'
  end.

End Dict.

(** ** Exceptions *)

Inductive pyexn : Type :=
| FileNotFoundError
| PermissionError
| IsADirectoryError
| JSONDecodeError
| UnicodeDecodeError
| RecursionError
| TypeError
| KeyError
| AttributeError
| ValueError
| SystemExit (code : Z).

(** A computation that returns or raises. *)
Inductive result (A : Type) : Type :=
| Ok (a : A)
| Raise (e : pyexn).
Arguments Ok {A} a.
Arguments Raise {A} e.

#[export] Instance result_ret : MRet result := fun A a => Ok a.
#[export] Instance result_bind : MBind result := fun A B f r =>
  match r with
  | Ok a => f a
  | Raise e => Raise e
  end.

(** ** Files, streams and the interpreter's state *)

(** A file is taken up to what [open(path, 'r')] and [json.load] make of it:
    something [open] refuses (a directory, a file without read permission),
    text [json.load] rejects, or text it parses to [v].  A refusal or a
    rejection comes with the exception raised: for text that is not JSON
    that is [JSONDecodeError], and [json.load] also raises
    [UnicodeDecodeError] on bytes that do not decode, [ValueError] on an
    integer literal too long to convert and [RecursionError] on nesting too
    deep.  [indent = Some n] says that the text is the one
    [json.dump(v, f, indent=n)] writes. *)
Inductive file : Type :=
| Unreadable (e : pyexn)
| NotJson (e : pyexn)
| Json (indent : option nat) (v : pyval).

(** What a run does that can be seen from outside, oldest first. *)
Inductive event : Type :=
| Stdout (line : string)
| Stderr (line : string)
| Traceback (e : pyexn)
| Read (path : string)
| Wrote (path : string) (content : file).

(** The world a run lives in: the files by path, the paths that cannot be
    opened for writing, and what has happened so far.  Paths are written in
    normal form, so that two [Path]s are equal when their strings are.  A
    path stands for the file it names: two different paths are two files,
    so a run in which one file goes by two names (through [..] or a link)
    is outside this world. *)
Record world : Type := World {
  files : gmap string file;
  readonly : gset string;
  trace : list event
}.

(** Record one more event. *)
Definition log (e : event) (w : world) : world :=
  {| files := files w; readonly := readonly w; trace := trace w ++ [e] |}.

(** A statement: it runs in a world, changes it, and returns or raises. *)
Definition py (A : Type) : Type := world -> result A * world.

#[export] Instance py_ret : MRet py := fun A a w => (Ok a, w).
#[export] Instance py_bind : MBind py := fun A B f m w =>
  match m w with
  | (Ok a, w') => f a w'
  | (Raise e, w') => (Raise e, w')
  end.

(** [raise e], and [sys.exit(code)] as [raise (SystemExit code)]. *)
Definition raise {A : Type} (e : pyexn) : py A := fun w => (Raise e, w).

(** A computation that touches neither files nor streams. *)
Definition pure {A : Type} (r : result A) : py A := fun w => (r, w).

(** [print(line)] and [print(line, file=sys.stderr)] *)
Definition print (line : string) : py unit :=
  fun w => (Ok (), log (Stdout line) w).
Definition eprint (line : string) : py unit :=
  fun w => (Ok (), log (Stderr line) w).

(** [path.exists()] *)
Definition path_exists (path : string) : py bool :=
  fun w => (Ok (bool_decide (is_Some (files w !! path))), w).

(** [with open(path, 'r') as f: json.load(f)]: every call builds new
    objects, which nothing else refers to. *)
Definition json_load (path : string) : py pyval :=
  fun w =>
    match files w !! path with
    | None => (Raise FileNotFoundError, w)
    | Some (Unreadable e) => (Raise e, w)
    | Some (NotJson e) => (Raise e, log (Read path) w)
    | Some (Json _ v) => (Ok v, log (Read path) w)
    end.

(** [with open(path, 'w') as f: json.dump(v, f, indent=indent)]: the file is
    created or overwritten with the text of [v] as [v] is at that moment.
    The failure modelled is the one of [open]: a path that cannot be opened
    for writing raises before the file is touched.  A write that breaks off
    after [open] has emptied the file (a full disk) is not modelled, so
    nothing below speaks of the state of a file whose writing failed
    midway. *)
Definition json_dump (v : pyval) (path : string) (indent : nat) : py unit :=
  fun w =>
    if bool_decide (path ∈ readonly w) then (Raise PermissionError, w)
    else
      let content := Json (Some indent) v in
      (Ok (), {| files := <[path := content]> (files w);
                 readonly := readonly w;
                 trace := trace w ++ [Wrote path content] |}).

(** [str(n)] for a length or a count. *)
Definition str_of_nat (n : nat) : string :=
  NilZero.string_of_uint (Nat.to_uint n).

Module Path.

(** Index of the last [c] in [s], counting from [i]. *)
Fixpoint rfind (c : ascii) (s : string) (i : nat) : option nat :=
  match s with
  | EmptyString => None
  | String a s' =>
      match rfind c s' (S i) with
      | Some j => Some j
      | None => if Ascii.eqb a c then Some i else None
      end
  end.

(** [path.name]: the last component, empty for the current directory. *)
Definition name (path : string) : string :=
  if String.eqb path "." then ""
  else
    match rfind "/" path 0 with
    | Some i => substring (S i) (String.length path - S i) path
    | None => path
    end.

(** [path.suffix]: from the last dot of the name, unless that dot opens or
    closes the name. *)
Definition suffix (path : string) : string :=
  let name := name path in
  match rfind "." name 0 with
  | Some i =>
      if bool_decide (0 < i < String.length name - 1)
      then substring i (String.length name - i) name
      else ""
  | None => ""
  end.

(** [path.with_suffix(new)] for a [new] that starts with a dot and holds no
    separator, as the script's only one does. *)
Definition with_suffix (path new : string) : result string :=
  if String.eqb (name path) "" then Raise ValueError
  else
    Ok (substring 0 (String.length path - String.length (suffix path)) path
        +:+ new).

End Path.

(** ** The script *)

(** The key the script reads and writes. *)
Definition command_key : pystr := pystr_of "command".

(** [flags_to_remove]: flags to remove (GCC-specific, not understood by
    clang). *)
Definition flags_to_remove : list pystr :=
  [pystr_of "-mno-direct-extern-access"].

(** [obj[key]] for a [str] key: a [dict] is looked up; a [str] or a [list]
    wants an integer index and the other values take no subscript. *)
Definition getitem (obj : pyval) (key : pystr) : result pyval :=
  match obj with
  | PyDict d =>
      match Dict.get key d with
      | Some v => Ok v
      | None => Raise KeyError
      end
  | _ => Raise TypeError
  end.

(** [obj[key] = v] for a [str] key. *)
Definition setitem (obj : pyval) (key : pystr) (v : pyval) : result pyval :=
  match obj with
  | PyDict d => Ok (PyDict (Dict.set key v d))
  | _ => Raise TypeError
  end.

(** [flag in x]: a substring of a [str], an element of a [list], a key of a
    [dict]; the other values are not containers. *)
Definition py_in (flag : pystr) (x : pyval) : result bool :=
  match x with
  | PyStr s => Ok (Str.contains flag s)
  | PyList items => Ok (existsb (pyval_eqb (PyStr flag)) items)
  | PyDict d => Ok (existsb (fun kv => bool_decide (kv.1 = flag)) d)
  | _ => Raise TypeError
  end.

(** [' '.join(s.split())] *)
Definition clean_spaces (s : pystr) : pystr :=
  Str.join (pystr_of " ") (Str.split s).

(** Lines 35-36: [x.replace(flag, '')], then [' '.join(x.split())].  Only a
    [str] has these methods. *)
Definition strip_flag (flag : pystr) (x : pyval) : result pyval :=
  match x with
  | PyStr s => Ok (PyStr (clean_spaces (Str.replace flag [] s)))
  | _ => Raise AttributeError
  end.

(** Lines 33-36: the loop over the flags. *)
Fixpoint remove_flags (flags : list pystr) (modified_command : pyval)
  : result pyval :=
  match flags with
  | [] => Ok modified_command
  | flag :: flags' =>
      found ← py_in flag modified_command;
      modified_command ←
        (if found : bool then strip_flag flag modified_command
         else Ok modified_command);
      remove_flags flags' modified_command
  end.

(** Lines 29-40: the body of the loop over the entries, run for the entry at
    index [i].  [entry] is the object [commands[i]] itself, so the assignment
    to [entry['command']] changes [commands] in place. *)
Definition loop_body (i : nat) (entry : pyval)
    (commands : list pyval) (modified_count : nat)
  : result (list pyval * nat) :=
  original_command ← getitem entry command_key;
  modified_command ← remove_flags flags_to_remove original_command;
  if negb (pyval_eqb modified_command original_command) then
    entry ← setitem entry command_key modified_command;
    Ok (<[i := entry]> commands, S modified_count)
  else Ok (commands, modified_count).

(** Lines 28-40 for a [list]: the entries from index [i] on, [n] bounding
    how many are left. *)
Fixpoint for_entries (n i : nat) (commands : list pyval)
    (modified_count : nat) : result (list pyval * nat) :=
  match n with
  | O => Ok (commands, modified_count)
  | S n' =>
      match commands !! i with
      | None => Ok (commands, modified_count)
      | Some entry =>
          '(commands, modified_count) ←
            loop_body i entry commands modified_count;
          for_entries n' (S i) commands modified_count
      end
  end.

(** Lines 26-40 on a list of entries: the entries as the loop leaves them and
    [modified_count]. *)
Definition rewrite (commands : list pyval) : result (list pyval * nat) :=
  for_entries (length commands) 0 commands 0.

(** [len(commands)] *)
Definition py_len (commands : pyval) : result nat :=
  match commands with
  | PyList items => Ok (length items)
  | PyDict d => Ok (length d)
  | PyStr s => Ok (length s)
  | _ => Raise TypeError
  end.

(** Lines 26-40 on whatever [json.load] returned.  Over a [dict] the loop
    variable is a key and over a [str] a character: both are [str], so the
    first [entry['command']] raises. *)
Definition rewrite_loaded (commands : pyval) : result (pyval * nat) :=
  match commands with
  | PyList entries =>
      '(entries, modified_count) ← rewrite entries;
      Ok (PyList entries, modified_count)
  | PyDict [] | PyStr [] => Ok (commands, 0)
  | PyDict ((k, _) :: _) =>
      _ ← getitem (PyStr k) command_key; Raise TypeError
  | PyStr (c :: _) =>
      _ ← getitem (PyStr [c]) command_key; Raise TypeError
  | _ => Raise TypeError
  end.

(** [fix_compile_commands(input_file, output_file)].  The loop changes the
    object that [commands] names; the script keeps no other copy of what it
    loaded. *)
Definition fix_compile_commands (input_file : string)
    (output_file : option string) : py unit :=
  let output_file := default input_file output_file in
  print ("Reading " +:+ input_file +:+ "...");;
  commands ← json_load input_file;
  n ← pure (py_len commands);
  print ("Processing " +:+ str_of_nat n +:+ " compilation units...");;
  '(commands, modified_count) ← pure (rewrite_loaded commands);
  print ("Modified " +:+ str_of_nat modified_count +:+ " compilation units");;
  (if bool_decide (output_file = input_file) then
     backup_file ← pure (Path.with_suffix input_file ".json.backup");
     print ("Creating backup: " +:+ backup_file);;
     json_dump commands backup_file 2
   else mret ());;
  print ("Writing fixed compile_commands.json to " +:+ output_file +:+ "...");;
  json_dump commands output_file 2;;
  print "Done!".

Definition compile_commands_path : string := "build/compile_commands.json".

(** The [__main__] block. *)
Definition main : py unit :=
  found ← path_exists compile_commands_path;
  (if negb found then
     eprint ("Error: " +:+ compile_commands_path +:+ " not found!");;
     raise (SystemExit 1)
   else mret ());;
  fix_compile_commands compile_commands_path None.

(** The process: its exit status and the world it leaves.  An exception that
    nothing catches is reported on the error stream and ends the process with
    status 1. *)
Definition run_script (w : world) : Z * world :=
  match main w with
  | (Ok _, w') => (0%Z, w')
  | (Raise (SystemExit code), w') => (code, w')
  | (Raise e, w') => (1%Z, log (Traceback e) w')
  end.

(** ** The loop, read entry by entry *)

(** The [command] of an entry, when the entry is a [dict] that has one. *)
Definition command_of (entry : pyval) : option pyval :=
  match entry with
  | PyDict d => Dict.get command_key d
  | _ => None
  end.

(** What lines 33-36 make of a [str] command: each flag in turn, deleted and
    the spaces cleaned up when it occurs, skipped when it does not. *)
Definition strip_flags (flags : list pystr) (s : pystr) : pystr :=
  foldl (fun s flag =>
           if Str.contains flag s
           then clean_spaces (Str.replace flag [] s) else s)
        s flags.

(** The loop body seen from one entry: the entry as the body leaves it, and
    whether the body counted it. *)
Definition rewrite_entry (entry : pyval) : result (pyval * bool) :=
  original_command ← getitem entry command_key;
  modified_command ← remove_flags flags_to_remove original_command;
  if negb (pyval_eqb modified_command original_command) then
    entry ← setitem entry command_key modified_command;
    Ok (entry, true)
  else Ok (entry, false).

(** The loop as a map over the entries that stops at the first exception
    and counts the entries the body changed. *)
Fixpoint rewrite_each (entries : list pyval) : result (list pyval * nat) :=
  match entries with
  | [] => Ok ([], 0)
  | entry :: entries' =>
      '(entry, changed) ← rewrite_entry entry;
      '(entries', n) ← rewrite_each entries';
      Ok (entry :: entries', (if changed : bool then 1 else 0) + n)
  end.

(** An entry the loop body has nothing to do on. *)
Definition settled (e : pyval) : Prop :=
  exists c, command_of e = Some c /\
            Forall (fun flag => py_in flag c = Ok false) flags_to_remove.

(** ** Statement vocabulary *)

(** The entries the loop returns, without the count: the specification's
    [rewrite(x)]. *)
Definition rewritten (entries : list pyval) : result (list pyval) :=
  '(entries, _) ← rewrite entries; Ok entries.

(** Do two entries differ in their [command]? *)
Definition command_differs (a b : pyval) : bool :=
  match command_of a, command_of b with
  | Some x, Some y => negb (pyval_eqb x y)
  | None, None => false
  | _, _ => true
  end.

(** The number of indices at which input and output differ in [command]. *)
Fixpoint count_differing (input output : list pyval) : nat :=
  match input, output with
  | a :: input', b :: output' =>
      (if command_differs a b then 1 else 0) + count_differing input' output'
  | _, _ => 0
  end.

(** Two entries with the same keys in the same order and, under every key
    but [command], the same value. *)
Definition same_but_command (e e' : pyval) : Prop :=
  exists d d',
    e = PyDict d /\ e' = PyDict d' /\
    Forall2 (fun kv kv' =>
               kv.1 = kv'.1 /\ (kv.1 <> command_key -> kv.2 = kv'.2)) d d'.

(** No [str] command of the entries holds a configured flag. *)
Definition flag_free (entries : list pyval) : Prop :=
  forall i e s flag,
    entries !! i = Some e -> command_of e = Some (PyStr s) ->
    flag ∈ flags_to_remove -> Str.contains flag s = false.

(** The one configured flag. *)
Definition the_flag : pystr := pystr_of "-mno-direct-extern-access".

(** A piece of [s.split()]: not empty and free of whitespace. *)
Definition word (w : pystr) : Prop :=
  w <> [] /\ Forall (fun c => Str.isspace c = false) w.

(** The events of a run that gets to the end, in order. *)
Definition run_trace (input_file output_file : string) (backup : option string)
    (k n : nat) (v' : pyval) : list event :=
  [Stdout ("Reading " +:+ input_file +:+ "...");
   Read input_file;
   Stdout ("Processing " +:+ str_of_nat k +:+ " compilation units...");
   Stdout ("Modified " +:+ str_of_nat n +:+ " compilation units")]
  ++ match backup with
     | Some backup_file =>
         [Stdout ("Creating backup: " +:+ backup_file);
          Wrote backup_file (Json (Some 2) v')]
     | None => []
     end
  ++ [Stdout ("Writing fixed compile_commands.json to "
              +:+ output_file +:+ "...");
      Wrote output_file (Json (Some 2) v');
      Stdout "Done!"].

Definition not_found_message : string :=
  "Error: build/compile_commands.json not found!".

Definition backup_path : string := "build/compile_commands.json.backup".

Module Spec.

(** The specification's whitespace rule, by its words: every run of
    whitespace becomes a single space. *)
Fixpoint collapse_runs (in_run : bool) (s : pystr) : pystr :=
  match s with
  | [] => []
  | c :: s' =>
      if Str.isspace c
      then (if in_run then collapse_runs true s'
            else 32%N :: collapse_runs true s')
      else c :: collapse_runs false s'
  end.

(** The specification's [rewrite] on one command, by its words: for each
    flag remove all occurrences of its text; after all removals, normalize
    whitespace runs. *)
Definition rewrite_command (flags : list pystr) (command : pystr) : pystr :=
  collapse_runs false
    (foldl (fun s flag => Str.replace flag [] s) command flags).


End Spec.

(** ** Sample inputs *)

(** An entry that has a [command] and nothing else. *)
Definition entry_with (command : pystr) : pyval :=
  PyDict [(command_key, PyStr command)].

(** A world with the given files, all writable, and nothing done yet. *)
Definition world_of (fs : list (string * file)) : world :=
  {| files := list_to_map fs; readonly := ∅; trace := [] |}.

(** The compilation database holds one entry, without the flag. *)
Definition unchanged_world : world :=
  world_of [(compile_commands_path,
             Json None (PyList [entry_with (pystr_of "gcc -O2 -Wall file.c")]))].

(** The compilation database holds the specification's example entry. *)
Definition flagged_input : pyval :=
  PyList [entry_with
            (pystr_of "gcc -O2 -mno-direct-extern-access -Wall file.c")].

Definition flagged_world : world :=
  world_of [(compile_commands_path, Json None flagged_input)].


(** Run the statements of a [py] computation as far as they go. *)
Ltac run_py :=
  unfold mbind, py_bind, mret, py_ret, print, eprint, pure, raise,
    json_load, json_dump, path_exists, log;
  cbv beta iota; cbn [files readonly trace].

(** ** Vocabulary for further properties *)

(** The characters of a string that are not whitespace, in order. *)
Definition nonspace (s : pystr) : pystr :=
  filter (fun c => Str.isspace c = false) s.

(** What follows a word: nothing, or whitespace. *)
Definition word_end (rest : pystr) : Prop :=
  rest = [] \/ exists c r, rest = c :: r /\ Str.isspace c = true.

(** The flag occurs in [s] only as a word of its own: every word of [s] is
    the flag or does not hold it. *)
Definition flag_only_as_word (flag s : pystr) : Prop :=
  Forall (fun w => w = flag \/ Str.contains flag w = false) (Str.split s).

(** The entry's command is a [str] that holds a configured flag. *)
Definition has_flag (e : pyval) : bool :=
  match command_of e with
  | Some (PyStr s) => existsb (fun flag => Str.contains flag s) flags_to_remove
  | _ => false
  end.

(** The exception lines 33-36 raise on a command, if any: a [str] is fine; a
    [list] or a [dict] is fine unless the flag is an item or a key of it,
    and then has no [replace]; nothing else supports [in]. *)
Definition command_error (c : pyval) : option pyexn :=
  match c with
  | PyStr _ => None
  | PyList items =>
      if existsb (pyval_eqb (PyStr the_flag)) items
      then Some AttributeError else None
  | PyDict fields =>
      if existsb (fun kv => bool_decide (kv.1 = the_flag)) fields
      then Some AttributeError else None
  | _ => Some TypeError
  end.

(** The exception the loop body raises on an entry, if any: only a [dict]
    takes the subscript ['command'], and it must have that key. *)
Definition entry_error (e : pyval) : option pyexn :=
  match e with
  | PyDict d =>
      match Dict.get command_key d with
      | Some c => command_error c
      | None => Some KeyError
      end
  | _ => Some TypeError
  end.

(** A world for the sample runs: the example database and a file the script
    has no business with. *)
Definition two_file_world (content : file) : world :=
  world_of [(compile_commands_path, content); ("build/notes.txt", NotJson JSONDecodeError)].

(** The same, with the database write-protected. *)
Definition protected_world : world :=
  {| files := files (two_file_world (Json None flagged_input));
     readonly := {[compile_commands_path]};
     trace := [] |}.

(** Split the hypothesis that an event is among those a run appended into
    the cases of the events appended, dropping those that cannot be it. *)
Ltac no_new_write H :=
  repeat (apply elem_of_app in H as [H|H]);
  try (apply list_elem_of_singleton in H; discriminate H).

(** * Part II: proofs *)

(** ** The model at work *)

Example with_suffix_demo :
  Path.with_suffix "build/compile_commands.json" ".json.backup"
  = Ok "build/compile_commands.json.backup".
Proof. reflexivity. Qed.

Example split_demo :
  Str.join (pystr_of " ") (Str.split (pystr_of "  gcc   -O2  file.c "))
  = pystr_of "gcc -O2 file.c".
Proof. vm_compute. reflexivity. Qed.

Example replace_demo :
  Str.replace (pystr_of "ab") [] (pystr_of "xabyaabbz") = pystr_of "xyabz".
Proof. vm_compute. reflexivity. Qed.

Example replace_takes_occurrences_left_to_right :
  Str.replace (pystr_of "aa") (pystr_of "b") (pystr_of "aaaaa")
  = pystr_of "bba".
Proof. vm_compute. reflexivity. Qed.

Example split_at_any_whitespace :
  Str.split [32; 97; 9; 98; 32; 32; 99; 10; 8195; 100]%N
  = [pystr_of "a"; pystr_of "b"; pystr_of "c"; pystr_of "d"].
Proof. vm_compute. reflexivity. Qed.

(** A command that is a [list] without the flag among its items passes the
    loop untouched; one with the flag among them has no [replace]. *)
Example list_command_without_flag :
  let e := PyDict [(command_key, PyList [PyStr (pystr_of "gcc")])] in
  rewrite [e] = Ok ([e], 0).
Proof. vm_compute. reflexivity. Qed.

Example list_command_with_flag :
  rewrite [PyDict [(command_key, PyList [PyStr the_flag])]]
  = Raise AttributeError.
Proof. vm_compute. reflexivity. Qed.

Example entry_without_command :
  rewrite [PyDict [(pystr_of "file", PyStr (pystr_of "a.c"))]]
  = Raise KeyError.
Proof. vm_compute. reflexivity. Qed.

Example entry_not_an_object :
  rewrite [entry_with the_flag; PyInt 3] = Raise TypeError.
Proof. vm_compute. reflexivity. Qed.

Example not_json_run :
  let w := world_of [(compile_commands_path, NotJson JSONDecodeError)] in
  (run_script w).1 = 1%Z /\
  trace (run_script w).2 =
  [Stdout "Reading build/compile_commands.json...";
   Read "build/compile_commands.json";
   Traceback JSONDecodeError] /\
  files (run_script w).2 !! backup_path = None.
Proof. vm_compute. repeat split; reflexivity. Qed.

Example flagged_run_trace :
  trace (run_script flagged_world).2 =
  [Stdout "Reading build/compile_commands.json...";
   Read "build/compile_commands.json";
   Stdout "Processing 1 compilation units...";
   Stdout "Modified 1 compilation units";
   Stdout "Creating backup: build/compile_commands.json.backup";
   Wrote "build/compile_commands.json.backup"
     (Json (Some 2) (PyList [entry_with (pystr_of "gcc -O2 -Wall file.c")]));
   Stdout "Writing fixed compile_commands.json to build/compile_commands.json...";
   Wrote "build/compile_commands.json"
     (Json (Some 2) (PyList [entry_with (pystr_of "gcc -O2 -Wall file.c")]));
   Stdout "Done!"].
Proof. vm_compute. reflexivity. Qed.

(** ** Equality of values *)

Lemma pyval_eqb_eq (a b : pyval) : pyval_eqb a b = true <-> a = b.
Proof.
  revert b. induction a as [| | | | |xs IH|xs IH] using pyval_ind;
    intros [| | | | |ys|ys]; simpl; try (split; [discriminate|congruence]);
    try (split; congruence).
  - rewrite Bool.eqb_true_iff. split; congruence.
  - rewrite Z.eqb_eq. split; congruence.
  - rewrite String.eqb_eq. split; congruence.
  - rewrite bool_decide_eq_true. split; congruence.
  - transitivity (xs = ys); [|split; congruence].
    revert ys. induction IH as [|x xs Hx _ IHxs]; intros [|y ys];
      try (split; [discriminate|congruence]); [done|].
    rewrite andb_true_iff, Hx, IHxs. split; [intros [-> ->]; done|].
    intros [= -> ->]; done.
  - transitivity (xs = ys); [|split; congruence].
    revert ys. induction IH as [|[k x] xs Hx _ IHxs]; intros [|[l y] ys];
      try (split; [discriminate|congruence]); [done|].
    simpl in Hx.
    rewrite !andb_true_iff, bool_decide_eq_true, Hx, IHxs.
    split; [intros [[-> ->] ->]; done|]. intros [= -> -> ->]; done.
Qed.

Lemma pyval_eqb_refl (a : pyval) : pyval_eqb a a = true.
Proof. by apply pyval_eqb_eq. Qed.

Lemma pyval_eqb_neq (a b : pyval) : pyval_eqb a b = false <-> a <> b.
Proof.
  rewrite <- not_true_iff_false, pyval_eqb_eq. done.
Qed.

(** ** Facts about the string methods *)

Module StrFacts.
Import Str.

Lemma startswith_app (p t : pystr) : startswith p (p ++ t) = true.
Proof. induction p as [|a p IH]; [done|]. simpl. by rewrite N.eqb_refl. Qed.

Lemma startswith_inv (p s : pystr) :
  startswith p s = true -> exists t, s = p ++ t.
Proof.
  revert s. induction p as [|a p IH]; intros s H; [by exists s|].
  destruct s as [|b s]; [done|]. simpl in H.
  apply andb_true_iff in H as [Hab Hps]. apply N.eqb_eq in Hab as ->.
  destruct (IH _ Hps) as [t ->]. by exists t.
Qed.

Lemma contains_startswith (sub s : pystr) :
  startswith sub s = true -> contains sub s = true.
Proof. intros H. destruct s; simpl; by rewrite H. Qed.

Lemma contains_app (pre sub post : pystr) :
  contains sub (pre ++ sub ++ post) = true.
Proof.
  induction pre as [|c pre IH].
  - rewrite app_nil_l. apply contains_startswith, startswith_app.
  - simpl. rewrite IH. apply orb_true_r.
Qed.

Lemma contains_inv (sub s : pystr) :
  contains sub s = true -> exists pre post, s = pre ++ sub ++ post.
Proof.
  induction s as [|c s IH]; simpl; intros H.
  - rewrite orb_false_r in H. apply startswith_inv in H as [t Ht].
    by exists [], t.
  - apply orb_true_iff in H as [H|H].
    + apply startswith_inv in H as [t Ht]. by exists [], t.
    + destruct (IH H) as (pre & post & ->). by exists (c :: pre), post.
Qed.

(** An occurrence of a larger text is an occurrence of any part of it. *)
Lemma contains_inner (a sub b s : pystr) :
  contains (a ++ sub ++ b) s = true -> contains sub s = true.
Proof.
  intros H. apply contains_inv in H as (pre & post & ->).
  replace (pre ++ (a ++ sub ++ b) ++ post)
    with ((pre ++ a) ++ sub ++ (b ++ post)) by (by rewrite <- !app_assoc).
  apply contains_app.
Qed.

Lemma replace_scan_length (old : pystr) (k : nat) (s : pystr) :
  length (replace_scan old [] k s) <= length s - k.
Proof.
  revert k. induction s as [|c s IH]; intros k; [simpl; lia|].
  destruct k as [|k]; simpl.
  - destruct (startswith old (c :: s)).
    + specialize (IH (length old - 1)). lia.
    + specialize (IH 0). simpl. lia.
  - apply IH.
Qed.

(** Deleting a text that occurs makes the string shorter. *)
Lemma replace_shorter (old s : pystr) :
  old <> [] -> contains old s = true ->
  length (replace old [] s) < length s.
Proof.
  intros Hold. destruct old as [|a old]; [done|]. unfold replace.
  induction s as [|c s IH]; [done|]. intros H.
  cbn [replace_scan]. destruct (startswith (a :: old) (c :: s)) eqn:E.
  - pose proof (replace_scan_length (a :: old) (length (a :: old) - 1) s).
    simpl in *. lia.
  - cbn [contains] in H. rewrite E in H. simpl in H |- *.
    specialize (IH H). lia.
Qed.

Lemma replace_empty (s : pystr) : replace [] [] s = s.
Proof.
  unfold replace. rewrite app_nil_l.
  induction s as [|c s IH]; [done|]. simpl. by rewrite IH.
Qed.

Lemma split_cons_nonspace (c : N) (s : pystr) :
  isspace c = false -> split (c :: s) <> [].
Proof.
  intros Hc. simpl. rewrite Hc. destruct s as [|d s]; [done|].
  destruct (isspace d); [done|]. by destruct (split (d :: s)).
Qed.

Lemma split_words (s : pystr) : Forall word (split s).
Proof.
  induction s as [|c s IH]; [constructor|].
  cbn [split]. destruct (isspace c) eqn:Hc; [done|].
  destruct s as [|d s]; [repeat constructor; done|].
  destruct (isspace d) eqn:Hd.
  - constructor; [|done]. split; [done|]. by constructor.
  - destruct (split (d :: s)) as [|w ws]; [repeat constructor; done|].
    inversion IH as [|? ? [Hw1 Hw2] Hws]; subst.
    constructor; [|done]. split; [done|]. by constructor.
Qed.

Lemma join_cons (sep w : pystr) (ws : list pystr) :
  join sep (w :: ws) =
  match ws with [] => w | _ :: _ => w ++ sep ++ join sep ws end.
Proof. done. Qed.

Lemma join_cons_cons (sep : pystr) (c : N) (w : pystr) (ws : list pystr) :
  join sep ((c :: w) :: ws) = c :: join sep (w :: ws).
Proof. rewrite !join_cons. by destruct ws. Qed.

(** [' '.join(s.split())] is never longer than [s], and shorter when [s]
    starts with whitespace. *)
Lemma clean_length_aux (s : pystr) :
  length (join [32%N] (split s)) <= length s /\
  (forall c s', s = c :: s' -> isspace c = true ->
     length (join [32%N] (split s)) < length s).
Proof.
  induction s as [|c s [IH1 IH2]]; [split; [done|congruence]|].
  split.
  - cbn [split]. destruct (isspace c) eqn:Hc; [simpl; lia|].
    destruct s as [|d s]; [done|].
    destruct (isspace d) eqn:Hd.
    + specialize (IH2 d s eq_refl Hd). rewrite join_cons.
      destruct (split (d :: s)) eqn:E; [cbn [length]; lia|].
      rewrite !length_app. cbn [length] in *. lia.
    + pose proof (split_cons_nonspace d s Hd) as Hne.
      destruct (split (d :: s)) as [|w ws]; [done|].
      rewrite join_cons_cons. cbn [length] in *. lia.
  - intros c' s' [= <- <-] Hc. cbn [split]. rewrite Hc. cbn [length]. lia.
Qed.

Lemma join_words_tight (ws : list pystr) :
  Forall word ws ->
  contains [32; 32]%N (join [32%N] ws) = false /\
  startswith [32%N] (join [32%N] ws) = false.
Proof.
  assert (Hskip : forall w r, Forall (fun c => isspace c = false) w ->
            contains [32; 32]%N (w ++ r) = contains [32; 32]%N r).
  { intros w r Hw. induction Hw as [|c w Hc _ IH]; [done|].
    cbn [app contains startswith]. rewrite IH.
    destruct (32 =? c)%N eqn:E; [|done].
    apply N.eqb_eq in E as <-. done. }
  assert (Hhead : forall w r, word w -> startswith [32%N] (w ++ r) = false).
  { intros [|c w] r [Hne Hw]; [done|]. inversion Hw as [|? ? Hc _]; subst.
    cbn [app startswith]. destruct (32 =? c)%N eqn:E; [|done].
    apply N.eqb_eq in E as <-. done. }
  induction 1 as [|w ws Hw Hws [IH1 IH2]]; [done|].
  rewrite join_cons. destruct ws as [|w' ws].
  - split.
    + rewrite <- (app_nil_r w). rewrite Hskip; [done|apply Hw].
    + rewrite <- (app_nil_r w). by apply Hhead.
  - split; [|by apply Hhead].
    rewrite Hskip by apply Hw.
    change ([32%N] ++ ?j) with (32%N :: j).
    cbn [contains]. rewrite IH1, orb_false_r.
    change (startswith [32; 32]%N (32%N :: ?j))
      with ((32 =? 32)%N && startswith [32%N] j).
    by rewrite IH2, andb_false_r.
Qed.

End StrFacts.

(** ** The in-place loop and its entry-by-entry reading *)

Lemma bind_Ok {A B : Type} (f : A -> result B) (r : result A) (b : B) :
  r ≫= f = Ok b -> exists a, r = Ok a /\ f a = Ok b.
Proof. destruct r as [a|e]; [by exists a|done]. Qed.

Lemma rewrite_entry_inv (entry entry' : pyval) (changed : bool) :
  rewrite_entry entry = Ok (entry', changed) ->
  exists d c m,
    entry = PyDict d /\ Dict.get command_key d = Some c /\
    remove_flags flags_to_remove c = Ok m /\
    (changed = true /\ m <> c /\ entry' = PyDict (Dict.set command_key m d)
     \/ changed = false /\ m = c /\ entry' = entry).
Proof.
  unfold rewrite_entry. intros H.
  apply bind_Ok in H as (c & Hc & H). apply bind_Ok in H as (m & Hm & H).
  destruct entry as [| | | | | |d]; try done. simpl in Hc.
  destruct (Dict.get command_key d) as [c'|] eqn:Hget; [|done].
  injection Hc as ->. exists d, c, m. do 3 (split; [done|]).
  destruct (pyval_eqb m c) eqn:E; simpl in H.
  - right. apply pyval_eqb_eq in E. by injection H as <- <-.
  - left. apply pyval_eqb_neq in E. by injection H as <- <-.
Qed.

Lemma loop_body_entry (i : nat) (entry : pyval) (commands : list pyval)
    (count : nat) :
  loop_body i entry commands count =
  '(entry', changed) ← rewrite_entry entry;
  Ok (if changed : bool then <[i := entry']> commands else commands,
      if changed then S count else count).
Proof.
  unfold loop_body, rewrite_entry.
  destruct (getitem entry command_key) as [c|]; [|done].
  cbn [mbind result_bind].
  destruct (remove_flags flags_to_remove c) as [m|]; [|done].
  cbn [mbind result_bind].
  destruct (negb (pyval_eqb m c)); [|done].
  by destruct (setitem entry command_key m).
Qed.

Lemma for_entries_each (rest pre : list pyval) (n count : nat) :
  length rest <= n ->
  for_entries n (length pre) (pre ++ rest) count =
  '(rest', k) ← rewrite_each rest; Ok (pre ++ rest', count + k).
Proof.
  revert pre n count. induction rest as [|e rest IH]; intros pre n count Hn.
  - simpl. rewrite Nat.add_0_r.
    destruct n; [done|]. simpl.
    by rewrite lookup_ge_None_2 by (rewrite length_app; simpl; lia).
  - destruct n as [|n]; [simpl in Hn; lia|]. cbn [for_entries rewrite_each].
    rewrite list_lookup_middle by done. rewrite loop_body_entry.
    destruct (rewrite_entry e) as [[e' b]|] eqn:He; [|done].
    cbn [mbind result_bind].
    assert ((if b then <[length pre := e']> (pre ++ e :: rest)
             else pre ++ e :: rest) = (pre ++ [e']) ++ rest) as ->.
    { rewrite <- app_assoc. simpl. destruct b.
      - rewrite insert_app_r_alt, Nat.sub_diag by done. done.
      - apply rewrite_entry_inv in He as (? & ? & ? & _ & _ & _ & H).
        destruct H as [[? _]|(_ & _ & ->)]; done. }
    replace (S (length pre)) with (length (pre ++ [e']))
      by (rewrite length_app; simpl; lia).
    rewrite IH by (simpl in Hn; lia).
    destruct (rewrite_each rest) as [[rest' k]|]; [|done]. simpl.
    rewrite <- app_assoc. simpl. do 2 f_equal. destruct b; lia.
Qed.

(** The in-place loop computes what the entry-by-entry reading does. *)
Lemma rewrite_each_eq (entries : list pyval) :
  rewrite entries = rewrite_each entries.
Proof.
  unfold rewrite.
  pose proof (for_entries_each entries [] (length entries) 0 (le_n _)) as H.
  cbn [length app] in H. rewrite H.
  by destruct (rewrite_each entries) as [[? ?]|].
Qed.

Lemma rewrite_cons_inv (e : pyval) (es out : list pyval) (n : nat) :
  rewrite (e :: es) = Ok (out, n) ->
  exists e' b out' n',
    rewrite_entry e = Ok (e', b) /\ rewrite es = Ok (out', n') /\
    out = e' :: out' /\ n = (if b then 1 else 0) + n'.
Proof.
  rewrite !rewrite_each_eq. simpl. intros H.
  apply bind_Ok in H as ([e' b] & He & H).
  apply bind_Ok in H as ([out' n'] & Hes & H). injection H as <- <-.
  by exists e', b, out', n'.
Qed.

Lemma rewrite_nil : rewrite [] = Ok ([], 0).
Proof. done. Qed.

(** Each entry of the result is the loop body's reading of the entry at the
    same index. *)
Lemma rewrite_lookup (entries out : list pyval) (n i : nat) (e : pyval) :
  rewrite entries = Ok (out, n) -> entries !! i = Some e ->
  exists e' b, rewrite_entry e = Ok (e', b) /\ out !! i = Some e'.
Proof.
  revert out n i. induction entries as [|x es IH]; intros out n i H Hi; [done|].
  apply rewrite_cons_inv in H as (e' & b & out' & n' & He & Hes & -> & _).
  destruct i as [|i]; simpl in Hi.
  - injection Hi as ->. by exists e', b.
  - by apply (IH out' n' i).
Qed.

Lemma rewrite_Forall2 (entries out : list pyval) (n : nat) :
  rewrite entries = Ok (out, n) ->
  Forall2 (fun e e' => exists b, rewrite_entry e = Ok (e', b)) entries out.
Proof.
  revert out n. induction entries as [|e es IH]; intros out n H.
  - rewrite rewrite_nil in H. injection H as <- <-. constructor.
  - apply rewrite_cons_inv in H as (e' & b & out' & n' & He & Hes & -> & _).
    constructor; [by exists b|]. by apply (IH out' n').
Qed.

Lemma rewritten_Ok (x y : list pyval) :
  rewritten x = Ok y <-> exists n, rewrite x = Ok (y, n).
Proof.
  unfold rewritten. destruct (rewrite x) as [[y' n]|e]; simpl.
  - split; [intros [= ->]; by exists n|]. by intros [n' [= -> _]].
  - split; [done|]. by intros [n' H].
Qed.

(** ** Facts about [dict] assignment and the flag loop *)

Lemma dict_get_set (key : pystr) (v : pyval) (d : pydict) :
  Dict.get key (Dict.set key v d) = Some v.
Proof.
  induction d as [|[k x] d IH]; simpl.
  - by rewrite bool_decide_eq_true_2.
  - destruct (bool_decide (k = key)) eqn:E; simpl; by rewrite E.
Qed.

Lemma dict_get_set_ne (key key' : pystr) (v : pyval) (d : pydict) :
  key' <> key -> Dict.get key' (Dict.set key v d) = Dict.get key' d.
Proof.
  intros Hne. induction d as [|[k x] d IH]; simpl.
  - by rewrite bool_decide_eq_false_2.
  - destruct (bool_decide (k = key)) eqn:E; simpl; [|by rewrite IH].
    apply bool_decide_eq_true in E as ->.
    by rewrite bool_decide_eq_false_2 by done.
Qed.

(** Assigning to a key the [dict] has keeps every pair in place and changes
    no other key's value. *)
Lemma dict_set_frame (key : pystr) (v : pyval) (d : pydict) :
  is_Some (Dict.get key d) ->
  Forall2 (fun kv kv' => kv.1 = kv'.1 /\ (kv.1 <> key -> kv.2 = kv'.2))
          d (Dict.set key v d).
Proof.
  induction d as [|[k x] d IH]; simpl; intros Hget.
  - by destruct Hget.
  - destruct (bool_decide (k = key)) eqn:E.
    + apply bool_decide_eq_true in E as ->. constructor; [done|].
      apply Forall2_same_length_lookup_2; [done|].
      by intros i a b Ha [= ->]%(eq_trans (eq_sym Ha)).
    + constructor; [done|]. by apply IH.
Qed.

Lemma remove_flags_absent (flags : list pystr) (c : pyval) :
  Forall (fun flag => py_in flag c = Ok false) flags ->
  remove_flags flags c = Ok c.
Proof.
  induction 1 as [|flag flags Hflag _ IH]; [done|].
  simpl. rewrite Hflag. simpl. done.
Qed.

Lemma remove_flags_str (flags : list pystr) (s : pystr) :
  remove_flags flags (PyStr s) = Ok (PyStr (strip_flags flags s)).
Proof.
  revert s. induction flags as [|flag flags IH]; intros s; [done|].
  simpl. destruct (Str.contains flag s); simpl; apply IH.
Qed.

Lemma clean_spaces_length (s : pystr) : length (clean_spaces s) <= length s.
Proof. apply StrFacts.clean_length_aux. Qed.

Lemma strip_flags_length (flags : list pystr) (s : pystr) :
  length (strip_flags flags s) <= length s.
Proof.
  revert s. induction flags as [|flag flags IH]; intros s; [done|].
  simpl. destruct (Str.contains flag s) eqn:E; [|apply IH].
  etransitivity; [apply IH|]. etransitivity; [apply clean_spaces_length|].
  destruct flag as [|a flag]; [by rewrite StrFacts.replace_empty|].
  apply Nat.lt_le_incl, StrFacts.replace_shorter; done.
Qed.

(** A [str] command that comes out as it went in held none of the flags. *)
Lemma strip_flags_fixed (flags : list pystr) (s : pystr) :
  Forall (fun flag => flag <> []) flags ->
  strip_flags flags s = s ->
  Forall (fun flag => Str.contains flag s = false) flags.
Proof.
  induction 1 as [|flag flags Hflag _ IH]; [constructor|].
  simpl. destruct (Str.contains flag s) eqn:E; intros H.
  - exfalso.
    pose proof (strip_flags_length flags
                  (clean_spaces (Str.replace flag [] s))) as H1.
    pose proof (clean_spaces_length (Str.replace flag [] s)) as H2.
    pose proof (StrFacts.replace_shorter flag s Hflag E) as H3.
    rewrite H in H1. lia.
  - constructor; [done|]. by apply IH.
Qed.

(** A command that is not a [str] gets through the flag loop only unchanged,
    and only when no flag is [in] it. *)
Lemma remove_flags_other (flags : list pystr) (c m : pyval) :
  (forall s, c <> PyStr s) ->
  remove_flags flags c = Ok m ->
  m = c /\ Forall (fun flag => py_in flag c = Ok false) flags.
Proof.
  intros Hc. induction flags as [|flag flags IH]; simpl.
  - intros [= <-]. by split.
  - destruct (py_in flag c) as [[|]|] eqn:E; simpl; [| |done].
    + destruct c; simpl; try done. by destruct (Hc s).
    + intros H. destruct (IH H) as [-> Hall]. split; [done|]. by constructor.
Qed.

Lemma remove_flags_fixed (flags : list pystr) (c : pyval) :
  Forall (fun flag => flag <> []) flags ->
  remove_flags flags c = Ok c ->
  Forall (fun flag => py_in flag c = Ok false) flags.
Proof.
  intros Hflags H. destruct c as [| | | |s| |];
    try (by apply remove_flags_other in H as [_ H]).
  rewrite remove_flags_str in H. injection H as H.
  apply strip_flags_fixed in H; [|done].
  eapply Forall_impl; [exact H|]. simpl. by intros flag ->.
Qed.

Lemma flags_nonempty : Forall (fun flag => flag <> []) flags_to_remove.
Proof. by repeat constructor. Qed.

Lemma strip_flags_either (flags : list pystr) (s : pystr) :
  strip_flags flags s = s \/ exists t, strip_flags flags s = clean_spaces t.
Proof.
  revert s. induction flags as [|flag flags IH]; intros s; [by left|].
  simpl. destruct (Str.contains flag s); [|apply IH].
  right. destruct (IH (clean_spaces (Str.replace flag [] s))) as [->|[t ->]];
    eauto.
Qed.

Lemma strip_flags_found (flags : list pystr) (s flag : pystr) :
  flag ∈ flags -> Str.contains flag s = true ->
  exists t, strip_flags flags s = clean_spaces t.
Proof.
  revert s. induction flags as [|flag0 flags IH]; intros s Hin Hs.
  - by apply elem_of_nil in Hin.
  - simpl. destruct (Str.contains flag0 s) eqn:E.
    + destruct (strip_flags_either flags
                  (clean_spaces (Str.replace flag0 [] s))) as [->|[t ->]];
        eauto.
    + apply elem_of_cons in Hin as [->|Hin]; [congruence|]. by apply IH.
Qed.

Lemma clean_spaces_no_double_space (t : pystr) :
  Str.contains (pystr_of "  ") (clean_spaces t) = false.
Proof. apply StrFacts.join_words_tight, StrFacts.split_words. Qed.

(** ** What the loop body does to one entry *)

Lemma command_differs_spec (a b : pyval) :
  command_differs a b = true <-> command_of a <> command_of b.
Proof.
  unfold command_differs.
  destruct (command_of a) as [x|], (command_of b) as [y|];
    try (split; [done|congruence]); try (split; done).
  rewrite negb_true_iff, pyval_eqb_neq. split; congruence.
Qed.

Lemma rewrite_entry_frame (e e' : pyval) (b : bool) :
  rewrite_entry e = Ok (e', b) -> same_but_command e e'.
Proof.
  intros H. apply rewrite_entry_inv in H as (d & c & m & -> & Hget & _ & H).
  destruct H as [(_ & _ & ->)|(_ & _ & ->)].
  - exists d, (Dict.set command_key m d). do 2 (split; [done|]).
    apply dict_set_frame. by rewrite Hget.
  - exists d, d. do 2 (split; [done|]).
    apply Forall2_same_length_lookup_2; [done|].
    by intros i x y Hx [= ->]%(eq_trans (eq_sym Hx)).
Qed.

(** The command an entry comes out with: the flag loop's result. *)
Lemma rewrite_entry_command (e e' : pyval) (b : bool) :
  rewrite_entry e = Ok (e', b) ->
  exists c m,
    command_of e = Some c /\ remove_flags flags_to_remove c = Ok m /\
    command_of e' = Some m /\ (b = true <-> m <> c).
Proof.
  intros H. apply rewrite_entry_inv in H as (d & c & m & -> & Hget & Hm & H).
  exists c, m. do 2 (split; [done|]).
  destruct H as [(-> & Hne & ->)|(-> & -> & ->)]; simpl.
  - by rewrite dict_get_set.
  - split; [done|]. split; [done|]. by intros [].
Qed.

Lemma rewrite_entry_settled (e : pyval) :
  settled e -> rewrite_entry e = Ok (e, false).
Proof.
  intros (c & Hc & Hfree). destruct e as [| | | | | |d]; try done.
  unfold rewrite_entry. cbn [command_of] in Hc. cbn [getitem]. rewrite Hc.
  cbn [mbind result_bind]. rewrite remove_flags_absent by done.
  cbn [mbind result_bind]. by rewrite pyval_eqb_refl.
Qed.

Lemma rewrite_settled (y : list pyval) :
  Forall settled y -> rewrite y = Ok (y, 0).
Proof.
  rewrite rewrite_each_eq. induction 1 as [|e y He _ IH]; [done|].
  simpl. rewrite (rewrite_entry_settled e He). simpl. by rewrite IH.
Qed.

Lemma rewrite_entry_fixed (e : pyval) (b : bool) :
  rewrite_entry e = Ok (e, b) -> settled e.
Proof.
  intros H. apply rewrite_entry_inv in H as (d & c & m & -> & Hget & Hm & H).
  exists c. split; [done|]. apply remove_flags_fixed; [apply flags_nonempty|].
  destruct H as [(_ & Hne & [= Hd])|(_ & -> & _)]; [|done].
  exfalso. apply Hne.
  pose proof (dict_get_set command_key m d) as Hset.
  rewrite <- Hd, Hget in Hset. congruence.
Qed.

Lemma rewrite_fixed (y : list pyval) (m : nat) :
  rewrite y = Ok (y, m) -> Forall settled y.
Proof.
  intros H. apply rewrite_Forall2 in H.
  apply Forall_lookup_2. intros i e Hi.
  destruct (Forall2_lookup_l _ _ _ _ _ H Hi) as (e' & Hi' & b & He).
  rewrite Hi in Hi'. injection Hi' as <-. by eapply rewrite_entry_fixed.
Qed.

(** What the loop body leaves behind is a [str] command or a settled one. *)
Lemma rewrite_entry_output (e e' : pyval) (b : bool) :
  rewrite_entry e = Ok (e', b) ->
  (exists s', command_of e' = Some (PyStr s')) \/ settled e'.
Proof.
  intros H. pose proof (rewrite_entry_inv _ _ _ H) as (d & c & m & -> & Hget & Hm & Hcase).
  apply rewrite_entry_command in H as (c0 & m0 & Hc0 & Hm0 & Hm' & _).
  simpl in Hc0. rewrite Hget in Hc0. injection Hc0 as <-.
  rewrite Hm in Hm0. injection Hm0 as <-.
  destruct c as [| | | |s| |];
    try (apply remove_flags_other in Hm as [-> Hfree]; [|done];
         right; by eexists).
  rewrite remove_flags_str in Hm. injection Hm as <-. left. by eexists.
Qed.

Lemma flag_free_settled (x y : list pyval) (n : nat) :
  rewrite x = Ok (y, n) -> flag_free y <-> Forall settled y.
Proof.
  intros Hrw. apply rewrite_Forall2 in Hrw. split.
  - intros Hfree. apply Forall_lookup_2. intros i e' Hi.
    destruct (Forall2_lookup_r _ _ _ _ _ Hrw Hi) as (e & _ & b & He).
    destruct (rewrite_entry_output _ _ _ He) as [[s' Hs']|]; [|done].
    exists (PyStr s'). split; [done|].
    apply Forall_forall. intros flag Hflag. simpl.
    by rewrite (Hfree i e' s' flag Hi Hs' Hflag).
  - intros Hall i e s flag Hi Hcmd Hflag.
    destruct (Forall_lookup_1 _ _ _ _ Hall Hi) as (c & Hc & Hfree).
    rewrite Hcmd in Hc. injection Hc as <-.
    rewrite Forall_forall in Hfree. specialize (Hfree flag Hflag).
    simpl in Hfree. congruence.
Qed.

Lemma rewrite_count (entries out : list pyval) (n : nat) :
  rewrite entries = Ok (out, n) -> n = count_differing entries out.
Proof.
  revert out n. induction entries as [|e es IH]; intros out n H.
  - rewrite rewrite_nil in H. by injection H as <- <-.
  - apply rewrite_cons_inv in H as (e' & b & out' & n' & He & Hes & -> & ->).
    simpl. rewrite <- (IH out' n' Hes). f_equal.
    apply rewrite_entry_command in He as (c & m & Hc & _ & Hm & Hb).
    unfold command_differs. rewrite Hc, Hm.
    destruct b.
    + destruct Hb as [Hb _]. specialize (Hb eq_refl).
      assert (pyval_eqb c m = false) as -> by (apply pyval_eqb_neq; congruence).
      done.
    + destruct (pyval_eqb c m) eqn:E; [done|].
      apply pyval_eqb_neq in E. destruct Hb as [_ Hb].
      by discriminate Hb.
Qed.

Lemma rewrite_count_zero (entries out : list pyval) :
  rewrite entries = Ok (out, 0) -> out = entries.
Proof.
  revert out. induction entries as [|e es IH]; intros out H.
  - rewrite rewrite_nil in H. by injection H as <-.
  - apply rewrite_cons_inv in H as (e' & b & out' & n' & He & Hes & -> & Hn).
    destruct b; [done|]. simpl in Hn. subst n'. rewrite (IH _ Hes).
    apply rewrite_entry_inv in He as (? & ? & ? & _ & _ & _ & H).
    destruct H as [[? _]|(_ & _ & ->)]; done.
Qed.

Lemma rewrite_loaded_count_zero (v v' : pyval) :
  rewrite_loaded v = Ok (v', 0) -> v' = v.
Proof.
  destruct v as [| | | |[|c s]|es|[|[k x] d]]; try done; simpl.
  - by intros [= <-].
  - destruct (rewrite es) as [[out n]|] eqn:E; [|done]. simpl.
    intros [= <- ->]. by rewrite (rewrite_count_zero _ _ E).
  - by intros [= <-].
Qed.





(** ** The whole run *)

Lemma rewrite_loaded_len (v v' : pyval) (n : nat) :
  rewrite_loaded v = Ok (v', n) -> exists k, py_len v = Ok k.
Proof. destruct v; try done; simpl; eauto. Qed.

Lemma fix_compile_commands_Ok (input_file : string)
    (output_file : option string) (w w' : world) :
  fix_compile_commands input_file output_file w = (Ok (), w') ->
  exists fmt v v' k n,
    files w !! input_file = Some (Json fmt v) /\
    py_len v = Ok k /\ rewrite_loaded v = Ok (v', n) /\
    let out := default input_file output_file in
    let doc := Json (Some 2) v' in
    (out ∉ readonly w) /\ readonly w' = readonly w /\
    if bool_decide (out = input_file) then
      exists backup,
        Path.with_suffix input_file ".json.backup" = Ok backup /\
        (backup ∉ readonly w) /\
        files w' = <[out := doc]> (<[backup := doc]> (files w)) /\
        trace w' = trace w ++ run_trace input_file out (Some backup) k n v'
    else
      files w' = <[out := doc]> (files w) /\
      trace w' = trace w ++ run_trace input_file out None k n v'.
Proof.
  unfold fix_compile_commands, run_trace.
  run_py.
  destruct (files w !! input_file) as [[e|e|fmt v]|]; try done.
  destruct (py_len v) as [k|] eqn:Elen; [|done].
  destruct (rewrite_loaded v) as [[v' n]|] eqn:Erw; [|done].
  destruct (bool_decide (default input_file output_file = input_file)) eqn:Eio.
  - destruct (Path.with_suffix input_file ".json.backup") as [backup|]
      eqn:Ebackup; [|done].
    run_py.
    destruct (bool_decide (backup ∈ readonly w)) eqn:Eb; [done|].
    run_py.
    destruct (bool_decide (default input_file output_file ∈ readonly w))
      eqn:Eo; [done|].
    run_py. intros [= <-]. apply bool_decide_eq_false in Eb, Eo.
    exists fmt, v, v', k, n. cbn zeta. cbn [files readonly trace].
    do 5 (split; [done|]). exists backup. do 3 (split; [done|]).
    by rewrite <- !app_assoc.
  - run_py.
    destruct (bool_decide (default input_file output_file ∈ readonly w))
      eqn:Eo; [done|].
    run_py. intros [= <-]. apply bool_decide_eq_false in Eo.
    exists fmt, v, v', k, n. cbn zeta. cbn [files readonly trace].
    do 6 (split; [done|]). by rewrite <- !app_assoc.
Qed.

Lemma fix_compile_commands_runs (input_file : string)
    (output_file : option string) (w : world)
    (fmt : option nat) (v v' : pyval) (n : nat) (backup : string) :
  files w !! input_file = Some (Json fmt v) ->
  rewrite_loaded v = Ok (v', n) ->
  default input_file output_file ∉ readonly w ->
  Path.with_suffix input_file ".json.backup" = Ok backup ->
  backup ∉ readonly w ->
  exists w', fix_compile_commands input_file output_file w = (Ok (), w').
Proof.
  intros Hfile Hrw Hout Hbackup Hb.
  destruct (rewrite_loaded_len _ _ _ Hrw) as [k Hk].
  unfold fix_compile_commands. run_py.
  rewrite Hfile, Hk, Hrw, Hbackup.
  destruct (bool_decide (default input_file output_file = input_file));
    run_py;
    rewrite ?(bool_decide_eq_false_2 _ Hb); run_py;
    rewrite (bool_decide_eq_false_2 _ Hout); eauto.
Qed.

(** In a run in place the backup file and the output file get the same
    content: the entries as the loop left them. *)
Lemma backup_is_what_the_loop_left
    (input_file : string) (w w' : world)
    (fmt : option nat) (v v' : pyval) (n : nat) :
  files w !! input_file = Some (Json fmt v) ->
  rewrite_loaded v = Ok (v', n) ->
  fix_compile_commands input_file None w = (Ok (), w') ->
  exists backup,
    Path.with_suffix input_file ".json.backup" = Ok backup /\
    files w' !! backup = Some (Json (Some 2) v').
Proof.
  intros Hfile Hrw Hrun.
  apply fix_compile_commands_Ok in Hrun
    as (fmt0 & v0 & v0' & k & n0 & Hfile0 & _ & Hrw0 & _ & _ & Hrun).
  rewrite Hfile in Hfile0. injection Hfile0 as <- <-.
  rewrite Hrw in Hrw0. injection Hrw0 as <- <-.
  cbn [default] in Hrun. rewrite bool_decide_eq_true_2 in Hrun by done.
  destruct Hrun as (backup & Hbackup & _ & -> & _).
  exists backup. split; [done|].
  destruct (decide (input_file = backup)) as [->|Hne].
  - by rewrite lookup_insert_eq.
  - by rewrite lookup_insert_ne, lookup_insert_eq.
Qed.

Lemma count_differing_same (entries : list pyval) :
  count_differing entries entries = 0.
Proof.
  induction entries as [|e es IH]; [done|]. simpl. rewrite IH.
  unfold command_differs. destruct (command_of e); [|done].
  by rewrite pyval_eqb_refl.
Qed.

(** Whenever the loop has modified an entry, the backup of a run in place
    differs from what was loaded. *)
Lemma backup_differs_when_modified
    (input_file : string) (w w' : world)
    (fmt : option nat) (entries out : list pyval) (n : nat) :
  files w !! input_file = Some (Json fmt (PyList entries)) ->
  rewrite entries = Ok (out, n) -> n <> 0 ->
  fix_compile_commands input_file None w = (Ok (), w') ->
  exists backup,
    Path.with_suffix input_file ".json.backup" = Ok backup /\
    files w' !! backup = Some (Json (Some 2) (PyList out)) /\
    out <> entries.
Proof.
  intros Hfile Hrw Hn Hrun.
  destruct (backup_is_what_the_loop_left input_file w w' fmt
              (PyList entries) (PyList out) n Hfile) as (backup & ? & ?);
    [by simpl; rewrite Hrw|done|].
  exists backup. do 2 (split; [done|]). intros ->.
  apply rewrite_count in Hrw. by rewrite count_differing_same in Hrw.
Qed.

(** ** Which entries the loop can process *)

Lemma py_in_the_flag (c : pyval) :
  command_error c = None ->
  (exists s, c = PyStr s) \/
  ((forall s, c <> PyStr s) /\ py_in the_flag c = Ok false).
Proof.
  destruct c as [| | | |s|items|fields]; cbn [command_error py_in]; try done.
  - intros _. left. by exists s.
  - destruct (existsb _ items); [done|]. by right.
  - destruct (existsb _ fields); [done|]. by right.
Qed.

Lemma rewrite_entry_no_error (e : pyval) :
  entry_error e = None -> exists e' b, rewrite_entry e = Ok (e', b).
Proof.
  destruct e as [| | | | | |d]; try done. unfold rewrite_entry.
  cbn [entry_error getitem].
  destruct (Dict.get command_key d) as [c|]; [|done].
  cbn [mbind result_bind]. intros [[s ->]|[Hc Hin]]%py_in_the_flag.
  - rewrite remove_flags_str. cbn [mbind result_bind].
    destruct (negb _); cbn [setitem mbind result_bind]; eauto.
  - rewrite remove_flags_absent by (by repeat constructor).
    cbn [mbind result_bind]. rewrite pyval_eqb_refl. cbn [negb]. eauto.
Qed.

Lemma rewrite_entry_error (e : pyval) (x : pyexn) :
  entry_error e = Some x -> rewrite_entry e = Raise x.
Proof.
  destruct e as [| | | | | |d]; try (by intros [= <-]). unfold rewrite_entry.
  cbn [entry_error getitem].
  destruct (Dict.get command_key d) as [c|]; [|by intros [= <-]].
  cbn [mbind result_bind]. unfold flags_to_remove. fold the_flag.
  cbn [remove_flags].
  destruct c as [| | | |s|items|fields]; cbn [command_error py_in];
    try (by intros [= <-]).
  - destruct (existsb _ items); [|done]. by intros [= <-].
  - destruct (existsb _ fields); [|done]. by intros [= <-].
Qed.


(** ** The properties of the specification *)

(** C1.  The backup is written after the loop has changed the loaded
    entries in place, from the same object: for the specification's example
    input the backup file parses to the rewritten entries, not to the
    entries as loaded. *)
Theorem backup_holds_rewritten_entries :
  let rewritten_input :=
    PyList [entry_with (pystr_of "gcc -O2 -Wall file.c")] in
  let w' := (run_script flagged_world).2 in
  (run_script flagged_world).1 = 0%Z /\
  files w' !! backup_path = Some (Json (Some 2) rewritten_input) /\
  files w' !! compile_commands_path = Some (Json (Some 2) rewritten_input) /\
  rewritten_input <> flagged_input.
Proof. vm_compute. repeat split; try reflexivity. discriminate. Qed.




(** C3.  The modified count the loop ends with, which is the count the run
    reports on its output, is the number of indices at which the input entry
    and the output entry differ in their [command]. *)
Theorem modified_count_is_number_of_changed_commands
    (entries out : list pyval) (n : nat) :
  rewrite entries = Ok (out, n) ->
  n = count_differing entries out /\
  forall input_file output_file w w' fmt,
    files w !! input_file = Some (Json fmt (PyList entries)) ->
    fix_compile_commands input_file output_file w = (Ok (), w') ->
    Stdout ("Modified " +:+ str_of_nat (count_differing entries out)
            +:+ " compilation units") ∈ trace w'.
Proof.
  intros Hrw. pose proof (rewrite_count _ _ _ Hrw) as Hn. split; [done|].
  intros input_file output_file w w' fmt Hfile Hrun.
  apply fix_compile_commands_Ok in Hrun
    as (fmt0 & v0 & v' & k & n0 & Hfile0 & _ & Hrw0 & _ & _ & Hrun).
  rewrite Hfile in Hfile0. injection Hfile0 as <- <-.
  cbn [rewrite_loaded] in Hrw0. rewrite Hrw in Hrw0.
  injection Hrw0 as <- <-. rewrite <- Hn.
  destruct (bool_decide _).
  - destruct Hrun as (backup & _ & _ & _ & ->). unfold run_trace. set_solver.
  - destruct Hrun as (_ & ->). unfold run_trace. set_solver.
Qed.

Lemma modified_count_is_number_of_changed_commands_witness :
  let input := [entry_with (pystr_of "gcc -mno-direct-extern-access a.c");
                entry_with (pystr_of "gcc  b.c");
                entry_with (pystr_of "-mno-direct-extern-access")] in
  let output := [entry_with (pystr_of "gcc a.c");
                 entry_with (pystr_of "gcc  b.c");
                 entry_with []] in
  2 = count_differing input output /\
  forall input_file output_file w w' fmt,
    files w !! input_file = Some (Json fmt (PyList input)) ->
    fix_compile_commands input_file output_file w = (Ok (), w') ->
    Stdout ("Modified " +:+ str_of_nat (count_differing input output)
            +:+ " compilation units") ∈ trace w'.
Proof.
  apply (modified_count_is_number_of_changed_commands
           [entry_with (pystr_of "gcc -mno-direct-extern-access a.c");
            entry_with (pystr_of "gcc  b.c");
            entry_with (pystr_of "-mno-direct-extern-access")]
           [entry_with (pystr_of "gcc a.c");
            entry_with (pystr_of "gcc  b.c");
            entry_with []] 2).
  vm_compute. reflexivity.
Defined.

(** C4, as the code has it.  A [str] command that holds the flag comes out
    with every occurrence of the flag's text deleted (left to right, without
    overlap) and then its whitespace-separated words joined by single
    spaces; a command that does not hold the flag comes out as it is.  The
    specification's example holds, with modified count 1. *)
Theorem rewrite_deletes_flag_then_joins_words :
  (forall (entries out : list pyval) (n i : nat) (d : pydict) (s : pystr),
      rewrite entries = Ok (out, n) ->
      entries !! i = Some (PyDict d) ->
      Dict.get command_key d = Some (PyStr s) ->
      exists d',
        out !! i = Some (PyDict d') /\
        Dict.get command_key d' =
        Some (PyStr (if Str.contains the_flag s
                     then clean_spaces (Str.replace the_flag [] s)
                     else s))) /\
  rewrite
    [entry_with (pystr_of "gcc -O2 -mno-direct-extern-access -Wall file.c")]
  = Ok ([entry_with (pystr_of "gcc -O2 -Wall file.c")], 1).
Proof.
  split; [|vm_compute; reflexivity].
  intros entries out n i d s Hrw Hi Hget.
  destruct (rewrite_lookup _ _ _ _ _ Hrw Hi) as (e' & b & He & Hout).
  destruct (rewrite_entry_frame _ _ _ He) as (? & d' & _ & -> & _).
  apply rewrite_entry_command in He as (c & m & Hc & Hm & Hm' & _).
  simpl in Hc. rewrite Hget in Hc. injection Hc as <-.
  rewrite remove_flags_str in Hm. injection Hm as <-.
  by exists d'.
Qed.

Lemma rewrite_deletes_flag_then_joins_words_witness :
  exists d',
    [entry_with (pystr_of "-Wall a.c")] !! 0 = Some (PyDict d') /\
    Dict.get command_key d' = Some (PyStr (pystr_of "-Wall a.c")).
Proof.
  apply (proj1 rewrite_deletes_flag_then_joins_words
           [entry_with (pystr_of "-mno-direct-extern-access -Wall  a.c ")]
           [entry_with (pystr_of "-Wall a.c")] 1 0
           [(command_key,
             PyStr (pystr_of "-mno-direct-extern-access -Wall  a.c "))]
           (pystr_of "-mno-direct-extern-access -Wall  a.c ")).
  - vm_compute. reflexivity.
  - reflexivity.
  - reflexivity.
Defined.

(** C4 as the specification words it fails on a command without the flag:
    the code leaves its run of spaces, the specification's rule would
    collapse it. *)
Lemma rewrite_keeps_spaces_of_flag_free_command :
  let s := pystr_of "gcc  -O2 file.c" in
  rewrite [entry_with s] = Ok ([entry_with s], 0) /\
  Spec.rewrite_command flags_to_remove s = pystr_of "gcc -O2 file.c" /\
  [entry_with s] <> [entry_with (Spec.rewrite_command flags_to_remove s)].
Proof. vm_compute. repeat split; try reflexivity. discriminate. Qed.

(** C5, as the code has it.  A second rewrite changes nothing exactly when
    the first left no flag behind: whenever the rewrite of [x] succeeds,
    rewriting its result gives that result again if and only if no command
    of the result holds a configured flag. *)
Theorem rewrite_twice_same_iff_flag_free (x y : list pyval) :
  rewritten x = Ok y ->
  (rewritten x ≫= rewritten = rewritten x <-> flag_free y).
Proof.
  intros Hx. rewrite Hx. cbn [mbind result_bind].
  apply rewritten_Ok in Hx as [n Hx].
  rewrite (flag_free_settled x y n Hx), rewritten_Ok. split.
  - intros [m Hy]. by eapply rewrite_fixed.
  - intros Hall. exists 0. by apply rewrite_settled.
Qed.

Lemma rewrite_twice_same_iff_flag_free_witness :
  let x := [entry_with (pystr_of "gcc -mno-direct-extern-access -c a.c")] in
  let y := [entry_with (pystr_of "gcc -c a.c")] in
  rewritten x ≫= rewritten = rewritten x <-> flag_free y.
Proof.
  apply (rewrite_twice_same_iff_flag_free
           [entry_with (pystr_of "gcc -mno-direct-extern-access -c a.c")]
           [entry_with (pystr_of "gcc -c a.c")]).
  vm_compute. reflexivity.
Defined.

(** C5 as the specification words it fails: one pass over a command in which
    deleting the flag splices a new occurrence together leaves the flag in
    the result, and a second pass deletes it. *)
Lemma rewrite_twice_differs :
  let x := [entry_with
              (pystr_of "-mno-direct-e-mno-direct-extern-accessxtern-access")] in
  rewritten x = Ok [entry_with (pystr_of "-mno-direct-extern-access")] /\
  rewritten x ≫= rewritten = Ok [entry_with (pystr_of "")] /\
  rewritten x ≫= rewritten <> rewritten x.
Proof. vm_compute. repeat split; try reflexivity. discriminate. Qed.

(** C6.  Without [build/compile_commands.json] the process prints the error
    on the error stream and exits with status 1: that message is the only
    event, so no file is read and none is written.  With the file there,
    holding a value the loop gets through, and both paths writable, the
    process exits with status 0. *)
Theorem missing_input_exits_1_and_success_exits_0 (w : world) :
  (files w !! compile_commands_path = None ->
   run_script w = (1%Z, log (Stderr not_found_message) w)) /\
  (forall fmt v v' n,
     files w !! compile_commands_path = Some (Json fmt v) ->
     rewrite_loaded v = Ok (v', n) ->
     compile_commands_path ∉ readonly w ->
     backup_path ∉ readonly w ->
     (run_script w).1 = 0%Z).
Proof.
  split.
  - intros Hnone. unfold run_script, main. run_py. by rewrite Hnone.
  - intros fmt v v' n Hfile Hrw Hout Hbackup.
    destruct (fix_compile_commands_runs compile_commands_path None w
                fmt v v' n backup_path Hfile Hrw Hout eq_refl Hbackup)
      as [w' Hrun].
    unfold run_script, main. run_py. rewrite Hfile.
    rewrite bool_decide_eq_true_2 by eauto.
    cbn [negb]. cbv beta iota. by rewrite Hrun.
Qed.

Lemma missing_input_exits_1_and_success_exits_0_witness :
  run_script (world_of []) = (1%Z, log (Stderr not_found_message) (world_of []))
  /\ (run_script unchanged_world).1 = 0%Z.
Proof.
  split.
  - apply (proj1 (missing_input_exits_1_and_success_exits_0 (world_of []))).
    reflexivity.
  - apply (proj2 (missing_input_exits_1_and_success_exits_0 unchanged_world)
             None (PyList [entry_with (pystr_of "gcc -O2 -Wall file.c")])
             (PyList [entry_with (pystr_of "gcc -O2 -Wall file.c")]) 0).
    + vm_compute. reflexivity.
    + vm_compute. reflexivity.
    + apply not_elem_of_empty.
    + apply not_elem_of_empty.
Defined.

(** C7.  The rewrite keeps the entries in their order, and in each entry the
    keys in their order and the value under every key other than [command]:
    at every index the output entry is the input entry up to its
    [command]. *)
Theorem rewrite_preserves_other_fields (entries out : list pyval) (n : nat) :
  rewrite entries = Ok (out, n) ->
  Forall2 same_but_command entries out.
Proof.
  intros H. apply rewrite_Forall2 in H.
  eapply Forall2_impl; [exact H|]. simpl.
  intros e e' [b Hb]. by eapply rewrite_entry_frame.
Qed.

Lemma rewrite_preserves_other_fields_witness :
  let file_key := pystr_of "file" in
  let e c := PyDict [(pystr_of "directory", PyStr (pystr_of "/b"));
                     (command_key, PyStr (pystr_of c));
                     (file_key, PyStr (pystr_of "a.c"))] in
  Forall2 same_but_command
    [e "gcc -mno-direct-extern-access -c a.c"; e "clang  -c a.c"]
    [e "gcc -c a.c"; e "clang  -c a.c"].
Proof.
  intros file_key e.
  apply (rewrite_preserves_other_fields _ _ 1).
  vm_compute. reflexivity.
Defined.

(** C8.  A command in which a configured flag stands between two spaces
    comes out of the rewrite without two spaces in a row. *)
Theorem flag_between_spaces_leaves_no_double_space
    (entries out : list pyval) (n i : nat) (d : pydict) (s flag : pystr) :
  rewrite entries = Ok (out, n) ->
  entries !! i = Some (PyDict d) ->
  Dict.get command_key d = Some (PyStr s) ->
  flag ∈ flags_to_remove ->
  Str.contains (pystr_of " " ++ flag ++ pystr_of " ") s = true ->
  exists d' s',
    out !! i = Some (PyDict d') /\
    Dict.get command_key d' = Some (PyStr s') /\
    Str.contains (pystr_of "  ") s' = false.
Proof.
  intros Hrw Hi Hget Hflag Hs.
  destruct (rewrite_lookup _ _ _ _ _ Hrw Hi) as (e' & b & He & Hout).
  destruct (rewrite_entry_frame _ _ _ He) as (? & d' & _ & -> & _).
  apply rewrite_entry_command in He as (c & m & Hc & Hm & Hm' & _).
  simpl in Hc. rewrite Hget in Hc. injection Hc as <-.
  rewrite remove_flags_str in Hm. injection Hm as <-.
  exists d', (strip_flags flags_to_remove s). do 2 (split; [done|]).
  apply StrFacts.contains_inner in Hs.
  destruct (strip_flags_found _ _ _ Hflag Hs) as [t ->].
  apply clean_spaces_no_double_space.
Qed.

Lemma flag_between_spaces_leaves_no_double_space_witness :
  exists d' s',
    [entry_with (pystr_of "gcc -O2 -Wall file.c")] !! 0 = Some (PyDict d') /\
    Dict.get command_key d' = Some (PyStr s') /\
    Str.contains (pystr_of "  ") s' = false.
Proof.
  apply (flag_between_spaces_leaves_no_double_space
           [entry_with (pystr_of "gcc -O2 -mno-direct-extern-access -Wall file.c")]
           [entry_with (pystr_of "gcc -O2 -Wall file.c")] 1 0
           [(command_key,
             PyStr (pystr_of "gcc -O2 -mno-direct-extern-access -Wall file.c"))]
           (pystr_of "gcc -O2 -mno-direct-extern-access -Wall file.c")
           the_flag).
  - vm_compute. reflexivity.
  - reflexivity.
  - reflexivity.
  - apply list_elem_of_here.
  - vm_compute. reflexivity.
Defined.

(** C9.  An entry whose command holds none of the configured flags comes out
    of the rewrite exactly as it went in: the whitespace clean-up sits
    behind the test [flag in modified_command], so a flag-free command keeps
    its runs of spaces. *)
Theorem flag_free_command_untouched
    (entries out : list pyval) (n i : nat) (e : pyval) (s : pystr) :
  rewrite entries = Ok (out, n) ->
  entries !! i = Some e ->
  command_of e = Some (PyStr s) ->
  Forall (fun flag => Str.contains flag s = false) flags_to_remove ->
  out !! i = Some e.
Proof.
  intros Hrw Hi Hcmd Hfree.
  destruct (rewrite_lookup _ _ _ _ _ Hrw Hi) as (e' & b & He & Hout).
  rewrite Hout. f_equal.
  apply rewrite_entry_inv in He as (d & c & m & -> & Hget & Hm & H).
  simpl in Hcmd. rewrite Hcmd in Hget. injection Hget as <-.
  rewrite remove_flags_absent in Hm.
  - injection Hm as <-. destruct H as [(_ & Hne & _)|(_ & _ & ->)]; done.
  - eapply Forall_impl; [exact Hfree|]. simpl. by intros flag ->.
Qed.

Lemma flag_free_command_untouched_witness :
  let e := entry_with (pystr_of "gcc  -O2   file.c") in
  rewrite [e] = Ok ([e], 0) /\ [e] !! 0 = Some e.
Proof.
  split; [vm_compute; reflexivity|].
  apply (flag_free_command_untouched
           [entry_with (pystr_of "gcc  -O2   file.c")]
           [entry_with (pystr_of "gcc  -O2   file.c")] 0 0 _
           (pystr_of "gcc  -O2   file.c")).
  - vm_compute. reflexivity.
  - reflexivity.
  - reflexivity.
  - repeat constructor.
Defined.

(** C10.  Every run that gets to the end has written the output file, and
    the backup file too when the output path is the input path, with the
    entries as the loop left them and indentation 2, whatever the modified
    count; when the count is 0 the value written is the value loaded. *)
Theorem output_written_on_every_successful_run
    (input_file : string) (output_file : option string) (w w' : world)
    (fmt : option nat) (v v' : pyval) (n : nat) :
  files w !! input_file = Some (Json fmt v) ->
  rewrite_loaded v = Ok (v', n) ->
  fix_compile_commands input_file output_file w = (Ok (), w') ->
  let out := default input_file output_file in
  let doc := Json (Some 2) v' in
  files w' !! out = Some doc /\ Wrote out doc ∈ trace w' /\
  (out = input_file ->
   exists backup,
     Path.with_suffix input_file ".json.backup" = Ok backup /\
     files w' !! backup = Some doc /\ Wrote backup doc ∈ trace w') /\
  (n = 0 -> v' = v).
Proof.
  intros Hfile Hrw Hrun out doc.
  apply fix_compile_commands_Ok in Hrun
    as (fmt0 & v0 & v0' & k & n0 & Hfile0 & _ & Hrw0 & _ & _ & Hrun).
  rewrite Hfile in Hfile0. injection Hfile0 as <- <-.
  rewrite Hrw in Hrw0. injection Hrw0 as <- <-.
  fold out doc in Hrun.
  assert (Hzero : n = 0 -> v' = v).
  { intros ->. by apply rewrite_loaded_count_zero. }
  destruct (bool_decide (out = input_file)) eqn:E.
  - destruct Hrun as (backup & Hbackup & _ & -> & ->).
    split; [by rewrite lookup_insert_eq|].
    split; [unfold run_trace; set_solver|].
    split; [|done]. intros _. exists backup. split; [done|].
    split; [|unfold run_trace; set_solver].
    destruct (decide (out = backup)) as [->|Hne].
    + by rewrite lookup_insert_eq.
    + by rewrite lookup_insert_ne, lookup_insert_eq.
  - destruct Hrun as (-> & ->). apply bool_decide_eq_false in E.
    split; [by rewrite lookup_insert_eq|].
    split; [unfold run_trace; set_solver|]. by split.
Qed.

Lemma output_written_on_every_successful_run_witness :
  let v := PyList [entry_with (pystr_of "gcc -O2 -Wall file.c")] in
  let w' := (fix_compile_commands compile_commands_path None unchanged_world).2 in
  let doc := Json (Some 2) v in
  files w' !! compile_commands_path = Some doc /\
  Wrote compile_commands_path doc ∈ trace w' /\
  (compile_commands_path = compile_commands_path ->
   exists backup,
     Path.with_suffix compile_commands_path ".json.backup" = Ok backup /\
     files w' !! backup = Some doc /\ Wrote backup doc ∈ trace w') /\
  (0 = 0 -> v = v).
Proof.
  apply (output_written_on_every_successful_run
           compile_commands_path None unchanged_world _ None
           (PyList [entry_with (pystr_of "gcc -O2 -Wall file.c")])
           (PyList [entry_with (pystr_of "gcc -O2 -Wall file.c")]) 0).
  - vm_compute. reflexivity.
  - vm_compute. reflexivity.
  - vm_compute. reflexivity.
Defined.

(** * Part III: further properties of the script *)

(** ** More about the string methods *)

Module StrMore.
Import Str StrFacts.

Lemma replace_scan_sublist (old : pystr) (k : nat) (s : pystr) :
  replace_scan old [] k s `sublist_of` s.
Proof.
  revert k. induction s as [|c s IH]; intros k; [done|].
  destruct k as [|k]; cbn [replace_scan].
  - destruct (startswith old (c :: s)).
    + rewrite app_nil_l. by apply sublist_cons.
    + by apply sublist_skip.
  - by apply sublist_cons.
Qed.

Lemma replace_sublist (old s : pystr) : replace old [] s `sublist_of` s.
Proof.
  destruct old as [|a old]; [by rewrite replace_empty|].
  apply replace_scan_sublist.
Qed.

Lemma nonspace_join_split (s : pystr) :
  nonspace (join [32%N] (split s)) = nonspace s.
Proof.
  unfold nonspace. induction s as [|c s IH]; [done|].
  cbn [split]. destruct (isspace c) eqn:Hc.
  - by rewrite IH, (filter_cons_False _ c s) by (by rewrite Hc).
  - rewrite (filter_cons_True _ c s) by done.
    destruct s as [|d s]; [by rewrite join_cons, filter_cons_True|].
    destruct (isspace d) eqn:Hd.
    + rewrite join_cons. destruct (split (d :: s)) as [|w ws] eqn:E.
      * rewrite <- IH. by rewrite filter_cons_True.
      * rewrite <- IH. cbn [app]. rewrite filter_cons_True by done.
        by rewrite filter_cons_False by done.
    + pose proof (split_cons_nonspace d s Hd) as Hne.
      destruct (split (d :: s)) as [|w ws]; [done|].
      rewrite join_cons_cons, filter_cons_True by done. by rewrite IH.
Qed.

Lemma filter_sublist_mono (P : N -> Prop) `{!forall x, Decision (P x)}
    (l1 l2 : pystr) :
  l1 `sublist_of` l2 -> filter P l1 `sublist_of` filter P l2.
Proof.
  induction 1 as [|x l1 l2 _ IH|x l1 l2 _ IH]; [done| |].
  - rewrite !filter_cons. destruct (decide (P x)); [by apply sublist_skip|done].
  - rewrite filter_cons. destruct (decide (P x)); [by apply sublist_cons|done].
Qed.

(** *** A flag that stands as a word of its own *)

Section whole_words.
Variable flag : pystr.
Hypothesis flag_nonempty : flag <> [].
Hypothesis flag_spaceless : Forall (fun c => isspace c = false) flag.

Lemma startswith_space (c : N) (s : pystr) :
  isspace c = true -> startswith flag (c :: s) = false.
Proof.
  intros Hc. destruct flag as [|a f'] eqn:E; [done|].
  inversion flag_spaceless as [|? ? Ha _]; subst. cbn [startswith].
  destruct (a =? c)%N eqn:Hac; [|done].
  apply N.eqb_eq in Hac as ->. congruence.
Qed.

Lemma startswith_more (p u x : pystr) :
  startswith p u = true -> startswith p (u ++ x) = true.
Proof.
  intros H. apply startswith_inv in H as [t ->].
  rewrite <- app_assoc. apply startswith_app.
Qed.

(** An occurrence cannot reach into what follows a word. *)
Lemma startswith_straddle (p u rest : pystr) :
  p <> [] -> Forall (fun c => isspace c = false) p -> word_end rest ->
  startswith p (u ++ rest) = true -> startswith p u = true.
Proof.
  intros Hp Hsp Hrest. revert p Hp Hsp.
  induction u as [|c u IH]; intros [|a p'] Hp Hsp H; try done.
  - rewrite app_nil_l in H. inversion Hsp as [|? ? Ha _]; subst.
    destruct Hrest as [->|(c & r & -> & Hc)]; [done|].
    cbn [startswith] in H. apply andb_true_iff in H as [Hac _].
    apply N.eqb_eq in Hac as ->. congruence.
  - cbn [app startswith] in H |- *.
    apply andb_true_iff in H as [-> H]. cbn [andb].
    destruct p' as [|b p'']; [done|].
    inversion Hsp; subst. by apply IH.
Qed.

Lemma replace_scan_space (c : N) (s : pystr) :
  isspace c = true ->
  replace_scan flag [] 0 (c :: s) = c :: replace_scan flag [] 0 s.
Proof. intros Hc. cbn [replace_scan]. by rewrite startswith_space. Qed.

Lemma replace_scan_skip (x rest : pystr) :
  replace_scan flag [] (length x) (x ++ rest) = replace_scan flag [] 0 rest.
Proof. induction x as [|c x IH]; [done|]. apply IH. Qed.

Lemma replace_scan_flag (rest : pystr) :
  replace_scan flag [] 0 (flag ++ rest) = replace_scan flag [] 0 rest.
Proof.
  pose proof (startswith_app flag rest) as Hstart.
  pose proof (replace_scan_skip (tail flag) rest) as Hskip.
  destruct flag as [|a f'] eqn:E; [done|].
  cbn [app replace_scan tail] in *. rewrite Hstart.
  replace (length (a :: f') - 1) with (length f') by (simpl; lia).
  exact Hskip.
Qed.

Lemma replace_scan_keep (u rest : pystr) :
  contains flag u = false -> word_end rest ->
  replace_scan flag [] 0 (u ++ rest) = u ++ replace_scan flag [] 0 rest.
Proof.
  intros Hu Hrest. induction u as [|c u IH]; [done|].
  cbn [contains] in Hu. apply orb_false_iff in Hu as [Hstart Hu].
  cbn [app replace_scan].
  destruct (startswith flag (c :: u ++ rest)) eqn:E.
  - apply (startswith_straddle flag (c :: u) rest) in E; try done.
    congruence.
  - by rewrite IH.
Qed.

Lemma replace_scan_word_end (rest : pystr) :
  word_end rest -> word_end (replace_scan flag [] 0 rest).
Proof.
  intros [->|(c & r & -> & Hc)]; [by left|].
  right. rewrite replace_scan_space by done. eauto.
Qed.

Lemma split_word_app (w rest : pystr) :
  word w -> word_end rest -> split (w ++ rest) = w :: split rest.
Proof.
  intros [Hne Hw] Hrest. induction Hw as [|c w Hc Hw IH]; [done|].
  cbn [app split]. rewrite Hc. destruct w as [|c' w].
  - rewrite app_nil_l.
    destruct Hrest as [->|(d & r & -> & Hd)]; [done|]. by rewrite Hd.
  - inversion Hw as [|? ? Hc' _]; subst. cbn [app]. rewrite Hc'.
    cbn [app] in IH. by rewrite IH.
Qed.

Lemma first_word (c : N) (s : pystr) :
  isspace c = false ->
  exists w rest, c :: s = w ++ rest /\ word w /\ word_end rest.
Proof.
  revert c. induction s as [|d s IH]; intros c Hc.
  - exists [c], []. split; [done|]. split; [|by left].
    split; [done|]. by constructor.
  - destruct (isspace d) eqn:Hd.
    + exists [c], (d :: s). split; [done|]. split; [|right; eauto].
      split; [done|]. by constructor.
    + destruct (IH d Hd) as (w & rest & -> & [_ Hw] & Hrest).
      exists (c :: w), rest. split; [done|]. split; [|done].
      split; [done|]. by constructor.
Qed.

Lemma contains_self : contains flag flag = true.
Proof.
  apply contains_startswith. rewrite <- (app_nil_r flag) at 2.
  apply startswith_app.
Qed.

(** Deleting a flag that occurs only as a word of its own deletes those
    words and nothing else. *)
Lemma split_replace_whole_words (s : pystr) :
  flag_only_as_word flag s ->
  split (replace_scan flag [] 0 s) = filter (fun w => w <> flag) (split s).
Proof.
  remember (length s) as n eqn:Hn. revert s Hn.
  induction n as [n IH] using lt_wf_ind. intros s -> Hs.
  destruct s as [|c s]; [done|]. destruct (isspace c) eqn:Hc.
  - rewrite replace_scan_space by done. unfold flag_only_as_word in Hs.
    cbn [split] in Hs |- *. rewrite Hc in Hs |- *.
    apply (IH (length s)); [simpl; lia|done|done].
  - destruct (first_word c s Hc) as (w & rest & Hs' & Hw & Hrest).
    rewrite Hs' in Hs |- *. unfold flag_only_as_word in Hs.
    rewrite split_word_app in Hs |- * by done.
    apply Forall_cons in Hs as [Hflag Hs].
    assert (Hlen : length rest < length (c :: s)).
    { rewrite Hs', length_app. destruct Hw as [Hne _].
      destruct w; [done|]. simpl. lia. }
    destruct Hflag as [->|Hflag].
    + rewrite replace_scan_flag, filter_cons_False by (by intros []).
      by apply (IH (length rest)).
    + rewrite replace_scan_keep by done.
      rewrite split_word_app by (by try apply replace_scan_word_end).
      rewrite filter_cons_True.
      * f_equal. by apply (IH (length rest)).
      * intros ->. by rewrite contains_self in Hflag.
Qed.

(** An occurrence cannot span the space between two joined words. *)
Lemma contains_across_space (u t : pystr) :
  contains flag (u ++ 32%N :: t) = contains flag u || contains flag t.
Proof.
  assert (Hend : word_end (32%N :: t)) by (right; eauto).
  induction u as [|c u IH].
  - rewrite app_nil_l. cbn [contains]. rewrite startswith_space by done.
    destruct flag; [done|]. done.
  - cbn [app contains]. rewrite IH, orb_assoc. f_equal.
    destruct (startswith flag (c :: u)) eqn:E.
    + pose proof (startswith_more _ _ (32%N :: t) E) as E2.
      cbn [app] in E2. by rewrite E2.
    + destruct (startswith flag (c :: u ++ 32%N :: t)) eqn:E'; [|done].
      apply (startswith_straddle flag (c :: u)) in E'; try done. congruence.
Qed.

Lemma contains_join (ws : list pystr) :
  Forall (fun w => contains flag w = false) ws ->
  contains flag (join [32%N] ws) = false.
Proof.
  induction 1 as [|w ws Hw _ IH].
  - simpl. destruct flag; [done|]. done.
  - rewrite join_cons. destruct ws as [|w' ws]; [done|].
    cbn [app]. by rewrite contains_across_space, Hw, IH.
Qed.

End whole_words.

(** *** Joined words *)

Lemma split_join_words (ws : list pystr) :
  Forall word ws -> split (join [32%N] ws) = ws.
Proof.
  induction 1 as [|w ws Hw Hws IH]; [done|].
  rewrite join_cons. destruct ws as [|w' ws].
  - rewrite <- (app_nil_r w) at 1. rewrite split_word_app; [done|done|by left].
  - rewrite split_word_app; [|done|right; by eexists _, _].
    f_equal. by rewrite <- IH at 2.
Qed.

Lemma clean_spaces_twice (s : pystr) :
  clean_spaces (clean_spaces s) = clean_spaces s.
Proof.
  unfold clean_spaces. change (pystr_of " ") with [32%N].
  by rewrite split_join_words by apply split_words.
Qed.

Lemma join_words_shape (ws : list pystr) :
  Forall word ws ->
  Forall (fun c => isspace c = true -> c = 32%N) (join [32%N] ws) /\
  (forall c, head (join [32%N] ws) = Some c -> isspace c = false) /\
  (forall c, last (join [32%N] ws) = Some c -> isspace c = false).
Proof.
  induction 1 as [|w ws [Hne Hw] Hws (IH1 & IH2 & IH3)]; [by repeat split|].
  assert (Hin : Forall (fun c => isspace c = true -> c = 32%N) w).
  { eapply Forall_impl; [exact Hw|]. simpl. congruence. }
  assert (Hhead : forall c x, head (w ++ x) = Some c -> isspace c = false).
  { destruct w as [|a w]; [done|]. inversion Hw; subst.
    by intros c x [= <-]. }
  assert (Hlast : forall c, last w = Some c -> isspace c = false).
  { intros c [l' ->]%last_Some. by apply Forall_app in Hw as [_ [? _]%Forall_cons]. }
  rewrite join_cons. destruct ws as [|w' ws].
  - repeat split; [done| |done]. intros c. rewrite <- (app_nil_r w). apply Hhead.
  - repeat split.
    + apply Forall_app. split; [done|]. apply Forall_app. split; [|done].
      by repeat constructor.
    + intros c. apply Hhead.
    + intros c. rewrite !last_app.
      destruct (last (join [32%N] (w' :: ws))) as [y|] eqn:E.
      * intros [= <-]. by apply IH3.
      * apply last_None in E. rewrite join_cons in E.
        inversion Hws as [|? ? [Hne' _] _]; subst.
        destruct ws; [done|]. by destruct w'.
Qed.

End StrMore.

(** ** Entries *)

Lemma the_flag_nonempty : the_flag <> [].
Proof. done. Qed.

Lemma the_flag_spaceless : Forall (fun c => Str.isspace c = false) the_flag.
Proof. repeat constructor. Qed.

Lemma rewrite_str_command
    (entries out : list pyval) (n i : nat) (d : pydict) (s : pystr) :
  rewrite entries = Ok (out, n) ->
  entries !! i = Some (PyDict d) ->
  Dict.get command_key d = Some (PyStr s) ->
  exists d',
    out !! i = Some (PyDict d') /\
    Dict.get command_key d' = Some (PyStr (strip_flags flags_to_remove s)).
Proof.
  intros Hrw Hi Hget.
  destruct (rewrite_lookup _ _ _ _ _ Hrw Hi) as (e' & b & He & Hout).
  destruct (rewrite_entry_frame _ _ _ He) as (? & d' & _ & -> & _).
  apply rewrite_entry_command in He as (c & m & Hc & Hm & Hm' & _).
  cbn [command_of] in Hc, Hm'. rewrite Hget in Hc. injection Hc as <-.
  rewrite remove_flags_str in Hm. injection Hm as <-. by exists d'.
Qed.

Lemma strip_whole_words (s : pystr) :
  flag_only_as_word the_flag s -> Str.contains the_flag s = true ->
  strip_flags flags_to_remove s =
  Str.join (pystr_of " ")
    (filter (fun w => w <> the_flag) (Str.split s)).
Proof.
  intros Hs Hin. unfold flags_to_remove. fold the_flag.
  cbn [strip_flags foldl]. rewrite Hin. unfold clean_spaces. f_equal.
  apply (StrMore.split_replace_whole_words the_flag the_flag_nonempty
           the_flag_spaceless s Hs).
Qed.

Lemma strip_whole_words_free (s : pystr) :
  flag_only_as_word the_flag s ->
  Str.contains the_flag (strip_flags flags_to_remove s) = false.
Proof.
  intros Hs. destruct (Str.contains the_flag s) eqn:Hin.
  - rewrite strip_whole_words by done.
    apply (StrMore.contains_join the_flag the_flag_nonempty the_flag_spaceless).
    apply Forall_forall. intros w [Hne Hw]%list_elem_of_filter.
    unfold flag_only_as_word in Hs. rewrite Forall_forall in Hs.
    by destruct (Hs w Hw).
  - unfold flags_to_remove. fold the_flag. cbn [strip_flags foldl].
    by rewrite Hin.
Qed.

(** X1.  When the flag occurs in a command only as a word of its own, and
    occurs, the rewritten command is the remaining words of the command, in
    order, joined by single spaces. *)
Theorem whole_word_flag_is_dropped
    (entries out : list pyval) (n i : nat) (d : pydict) (s : pystr) :
  rewrite entries = Ok (out, n) ->
  entries !! i = Some (PyDict d) ->
  Dict.get command_key d = Some (PyStr s) ->
  flag_only_as_word the_flag s ->
  Str.contains the_flag s = true ->
  exists d',
    out !! i = Some (PyDict d') /\
    Dict.get command_key d' =
    Some (PyStr (Str.join (pystr_of " ")
                   (filter (fun w => w <> the_flag) (Str.split s)))).
Proof.
  intros Hrw Hi Hget Hs Hin.
  destruct (rewrite_str_command _ _ _ _ _ _ Hrw Hi Hget) as (d' & ? & Hd').
  exists d'. split; [done|]. by rewrite Hd', strip_whole_words.
Qed.

Lemma whole_word_flag_is_dropped_witness :
  exists d',
    [entry_with (pystr_of "gcc -O2 -Wall file.c")] !! 0 = Some (PyDict d') /\
    Dict.get command_key d' =
    Some (PyStr (Str.join (pystr_of " ")
                   (filter (fun w => w <> the_flag)
                      (Str.split (pystr_of
                         "gcc -O2 -mno-direct-extern-access -Wall file.c"))))).
Proof.
  apply (whole_word_flag_is_dropped
           [entry_with (pystr_of "gcc -O2 -mno-direct-extern-access -Wall file.c")]
           [entry_with (pystr_of "gcc -O2 -Wall file.c")] 1 0
           [(command_key,
             PyStr (pystr_of "gcc -O2 -mno-direct-extern-access -Wall file.c"))]).
  - vm_compute. reflexivity.
  - reflexivity.
  - reflexivity.
  - unfold flag_only_as_word. apply (bool_decide_unpack _). vm_compute. exact I.
  - vm_compute. reflexivity.
Defined.

(** X2.  When in every command the flag occurs only as a word of its own,
    one rewrite removes it for good: no command of the result holds the
    flag, and rewriting the result changes nothing and counts nothing. *)
Theorem whole_word_rewrite_is_stable (entries out : list pyval) (n : nat) :
  (forall i e s, entries !! i = Some e -> command_of e = Some (PyStr s) ->
                 flag_only_as_word the_flag s) ->
  rewrite entries = Ok (out, n) ->
  flag_free out /\ rewrite out = Ok (out, 0).
Proof.
  intros Hwords Hrw.
  assert (Hfree : flag_free out).
  { intros i e' s' flag Hi' Hcmd' Hflag.
    apply list_elem_of_singleton in Hflag as ->. fold the_flag.
    pose proof (rewrite_Forall2 _ _ _ Hrw) as Hall.
    destruct (Forall2_lookup_r _ _ _ _ _ Hall Hi') as (e & Hi & b & He).
    apply rewrite_entry_command in He as (c & m & Hc & Hm & Hm' & _).
    rewrite Hcmd' in Hm'. injection Hm' as <-.
    destruct c as [| | | |s| |];
      try (by apply remove_flags_other in Hm as [[=] _]).
    rewrite remove_flags_str in Hm.
    assert (s' = strip_flags flags_to_remove s) as -> by congruence.
    apply strip_whole_words_free. by eapply Hwords. }
  split; [done|].
  apply rewrite_settled. by apply (flag_free_settled entries out n).
Qed.

Lemma whole_word_rewrite_is_stable_witness :
  let out := [entry_with (pystr_of "gcc -O2 -Wall file.c")] in
  flag_free out /\ rewrite out = Ok (out, 0).
Proof.
  apply (whole_word_rewrite_is_stable
           [entry_with (pystr_of "gcc -O2 -mno-direct-extern-access -Wall file.c")]
           [entry_with (pystr_of "gcc -O2 -Wall file.c")] 1).
  - intros [|i] e s Hi Hcmd; [|done].
    injection Hi as <-. injection Hcmd as <-.
    unfold flag_only_as_word. apply (bool_decide_unpack _). vm_compute. exact I.
  - vm_compute. reflexivity.
Defined.

Lemma has_flag_absent (s : pystr) :
  existsb (fun flag => Str.contains flag s) flags_to_remove = false <->
  Forall (fun flag => Str.contains flag s = false) flags_to_remove.
Proof.
  induction flags_to_remove as [|flag flags IH]; simpl.
  - split; [constructor|done].
  - rewrite orb_false_iff, IH, Forall_cons. done.
Qed.

(** The loop body changes an entry exactly when its command is a [str] that
    holds a flag. *)
Lemma rewrite_entry_changed (e e' : pyval) (b : bool) :
  rewrite_entry e = Ok (e', b) ->
  b = has_flag e /\ (e' = e <-> has_flag e = false).
Proof.
  intros H. apply rewrite_entry_inv in H as (d & c & m & -> & Hget & Hm & H).
  unfold has_flag. cbn [command_of]. rewrite Hget.
  destruct c as [| | | |s| |];
    try (apply remove_flags_other in Hm as [-> _]; [|done];
         destruct H as [(_ & [] & _)|(-> & _ & ->)]; done).
  rewrite remove_flags_str in Hm.
  assert (m = PyStr (strip_flags flags_to_remove s)) as -> by congruence.
  destruct H as [(-> & Hne & ->)|(-> & Heq & ->)].
  - assert (existsb (fun flag => Str.contains flag s) flags_to_remove = true)
      as ->.
    { apply not_false_iff_true. intros Hno. apply has_flag_absent in Hno.
      apply Hne. pose proof (remove_flags_absent flags_to_remove (PyStr s)) as Ha.
      rewrite remove_flags_str in Ha.
      assert (Hall : Forall (fun flag => py_in flag (PyStr s) = Ok false)
                       flags_to_remove).
      { eapply Forall_impl; [exact Hno|]. simpl. by intros flag ->. }
      specialize (Ha Hall). congruence. }
    split; [done|]. split; [|done]. intros Hd. exfalso. apply Hne.
    pose proof (dict_get_set command_key
                  (PyStr (strip_flags flags_to_remove s)) d) as Hset.
    assert (Dict.set command_key (PyStr (strip_flags flags_to_remove s)) d = d)
      as Hd' by congruence.
    rewrite Hd', Hget in Hset. congruence.
  - assert (existsb (fun flag => Str.contains flag s) flags_to_remove = false)
      as ->.
    { apply has_flag_absent, strip_flags_fixed; [apply flags_nonempty|].
      congruence. }
    done.
Qed.

(** X3.  The loop changes an entry exactly when its command is a string
    that holds a configured flag, and the modified count is the number of
    such entries of the input. *)
Theorem count_is_number_of_flagged_commands
    (entries out : list pyval) (n : nat) :
  rewrite entries = Ok (out, n) ->
  n = length (filter (fun e => has_flag e = true) entries) /\
  forall i e, entries !! i = Some e ->
              (out !! i = Some e <-> has_flag e = false).
Proof.
  revert out n. induction entries as [|e es IH]; intros out n H.
  - rewrite rewrite_nil in H. injection H as <- <-. by split.
  - apply rewrite_cons_inv in H as (e' & b & out' & n' & He & Hes & -> & ->).
    destruct (IH _ _ Hes) as [Hn Hi].
    apply rewrite_entry_changed in He as [-> He]. split.
    + rewrite filter_cons. destruct (decide (has_flag e = true)) as [->|Hf].
      * simpl. by rewrite Hn.
      * by destruct (has_flag e).
    + intros [|i] x Hx; simpl in Hx |- *.
      * injection Hx as <-. rewrite <- He. split; congruence.
      * by apply Hi.
Qed.

Lemma count_is_number_of_flagged_commands_witness :
  let entries := [entry_with (pystr_of "gcc -mno-direct-extern-access a.c");
                  entry_with (pystr_of "gcc  b.c")] in
  let out := [entry_with (pystr_of "gcc a.c");
              entry_with (pystr_of "gcc  b.c")] in
  1 = length (filter (fun e => has_flag e = true) entries) /\
  forall i e, entries !! i = Some e ->
              (out !! i = Some e <-> has_flag e = false).
Proof.
  apply (count_is_number_of_flagged_commands
           [entry_with (pystr_of "gcc -mno-direct-extern-access a.c");
            entry_with (pystr_of "gcc  b.c")]
           [entry_with (pystr_of "gcc a.c");
            entry_with (pystr_of "gcc  b.c")] 1).
  vm_compute. reflexivity.
Defined.

(** X4.  The modified count is 0 exactly when the entries come out as they
    went in. *)
Theorem zero_count_iff_unchanged (entries out : list pyval) (n : nat) :
  rewrite entries = Ok (out, n) -> (n = 0 <-> out = entries).
Proof.
  intros H. split.
  - intros ->. by apply rewrite_count_zero.
  - intros ->. apply rewrite_count in H. by rewrite count_differing_same in H.
Qed.

Lemma zero_count_iff_unchanged_witness :
  1 = 0 <->
  [entry_with (pystr_of "gcc a.c")]
  = [entry_with (pystr_of "gcc -mno-direct-extern-access a.c")].
Proof.
  apply (zero_count_iff_unchanged
           [entry_with (pystr_of "gcc -mno-direct-extern-access a.c")]
           [entry_with (pystr_of "gcc a.c")] 1).
  vm_compute. reflexivity.
Defined.

(** X5.  The loop gets through exactly the lists in which every entry is
    an object with a [command] that is a string, or a list or an object
    that does not have the flag as an item or a key. *)
Theorem rewrite_succeeds_iff_no_entry_error (entries : list pyval) :
  (exists out n, rewrite entries = Ok (out, n)) <->
  Forall (fun e => entry_error e = None) entries.
Proof.
  rewrite rewrite_each_eq. induction entries as [|e es IH].
  - split; [constructor|]. intros _. by exists [], 0.
  - rewrite Forall_cons, <- IH. cbn [rewrite_each]. split.
    + intros (out & n & H). apply bind_Ok in H as ([e' b] & He & H).
      apply bind_Ok in H as ([out' n'] & Hes & _). split; [|eauto].
      destruct (entry_error e) as [x|] eqn:E; [|done].
      apply rewrite_entry_error in E. congruence.
    + intros [He (out & n & Hes)].
      destruct (rewrite_entry_no_error e He) as (e' & b & ->).
      rewrite Hes. cbn [mbind result_bind]. eauto.
Qed.

(** X6.  The loop raises the exception of the first entry it cannot
    process: [TypeError] for an entry that is no object and for a command
    that is a number, a boolean or null, [KeyError] for an object without
    [command], [AttributeError] for a list or an object that has the flag as
    an item or a key. *)
Theorem rewrite_raises_error_of_first_bad_entry
    (entries : list pyval) (i : nat) (e : pyval) (x : pyexn) :
  entries !! i = Some e ->
  entry_error e = Some x ->
  (forall j e', j < i -> entries !! j = Some e' -> entry_error e' = None) ->
  rewrite entries = Raise x.
Proof.
  rewrite rewrite_each_eq. revert i.
  induction entries as [|a es IH]; intros i Hi He Hbefore; [done|].
  cbn [rewrite_each]. destruct i as [|i]; simpl in Hi.
  - injection Hi as ->. by rewrite (rewrite_entry_error e x He).
  - destruct (rewrite_entry_no_error a) as (a' & b & ->).
    { apply (Hbefore 0 a); [lia|done]. }
    cbn [mbind result_bind]. rewrite (IH i Hi He); [done|].
    intros j e' Hj Hj'. apply (Hbefore (S j) e'); [lia|done].
Qed.

Lemma rewrite_raises_error_of_first_bad_entry_witness :
  rewrite [entry_with the_flag;
           PyDict [(pystr_of "file", PyStr (pystr_of "a.c"))];
           PyInt 3]
  = Raise KeyError.
Proof.
  apply (rewrite_raises_error_of_first_bad_entry _ 1
           (PyDict [(pystr_of "file", PyStr (pystr_of "a.c"))])).
  - reflexivity.
  - reflexivity.
  - intros [|j] e' Hj Hj'; [|lia]. injection Hj' as <-. reflexivity.
Defined.

(** *** What a rewritten command is made of *)

Lemma strip_flags_nonspace (flags : list pystr) (s : pystr) :
  nonspace (strip_flags flags s) `sublist_of` nonspace s.
Proof.
  revert s. induction flags as [|flag flags IH]; intros s; [done|].
  cbn [strip_flags foldl]. destruct (Str.contains flag s); [|apply IH].
  etransitivity; [apply IH|]. unfold clean_spaces.
  change (pystr_of " ") with [32%N]. rewrite StrMore.nonspace_join_split.
  apply StrMore.filter_sublist_mono, StrMore.replace_sublist.
Qed.

(** X7.  The rewrite only deletes: the non-whitespace characters of a
    rewritten command are a subsequence of those of the original, and the
    command is not longer than it was. *)
Theorem rewrite_only_deletes
    (entries out : list pyval) (n i : nat) (d : pydict) (s : pystr) :
  rewrite entries = Ok (out, n) ->
  entries !! i = Some (PyDict d) ->
  Dict.get command_key d = Some (PyStr s) ->
  exists d' s',
    out !! i = Some (PyDict d') /\
    Dict.get command_key d' = Some (PyStr s') /\
    nonspace s' `sublist_of` nonspace s /\
    length s' <= length s.
Proof.
  intros Hrw Hi Hget.
  destruct (rewrite_str_command _ _ _ _ _ _ Hrw Hi Hget) as (d' & ? & ?).
  exists d', (strip_flags flags_to_remove s). do 2 (split; [done|]).
  split; [apply strip_flags_nonspace|apply strip_flags_length].
Qed.

Lemma rewrite_only_deletes_witness :
  exists d' s',
    [entry_with (pystr_of "gcc a.c")] !! 0 = Some (PyDict d') /\
    Dict.get command_key d' = Some (PyStr s') /\
    nonspace s' `sublist_of`
      nonspace (pystr_of "gcc  -mno-direct-extern-access a.c ") /\
    length s' <= length (pystr_of "gcc  -mno-direct-extern-access a.c ").
Proof.
  apply (rewrite_only_deletes
           [entry_with (pystr_of "gcc  -mno-direct-extern-access a.c ")]
           [entry_with (pystr_of "gcc a.c")] 1 0
           [(command_key,
             PyStr (pystr_of "gcc  -mno-direct-extern-access a.c "))]).
  - vm_compute. reflexivity.
  - reflexivity.
  - reflexivity.
Defined.

(** X8.  A command that held a flag comes out with no whitespace at either
    end and no whitespace character but the space; cleaning its spaces
    again gives it back. *)
Theorem modified_command_is_normalised
    (entries out : list pyval) (n i : nat) (d : pydict) (s flag : pystr) :
  rewrite entries = Ok (out, n) ->
  entries !! i = Some (PyDict d) ->
  Dict.get command_key d = Some (PyStr s) ->
  flag ∈ flags_to_remove ->
  Str.contains flag s = true ->
  exists d' s',
    out !! i = Some (PyDict d') /\
    Dict.get command_key d' = Some (PyStr s') /\
    Forall (fun c => Str.isspace c = true -> c = 32%N) s' /\
    (forall c, head s' = Some c -> Str.isspace c = false) /\
    (forall c, last s' = Some c -> Str.isspace c = false) /\
    clean_spaces s' = s'.
Proof.
  intros Hrw Hi Hget Hflag Hin.
  destruct (rewrite_str_command _ _ _ _ _ _ Hrw Hi Hget) as (d' & ? & ?).
  exists d', (strip_flags flags_to_remove s). do 2 (split; [done|]).
  destruct (strip_flags_found _ _ _ Hflag Hin) as [t ->].
  pose proof (StrMore.join_words_shape (Str.split t) (StrFacts.split_words t)) as (H1 & H2 & H3).
  repeat split; try done. apply StrMore.clean_spaces_twice.
Qed.

Lemma modified_command_is_normalised_witness :
  exists d' s',
    [entry_with (pystr_of "gcc a.c")] !! 0 = Some (PyDict d') /\
    Dict.get command_key d' = Some (PyStr s') /\
    Forall (fun c => Str.isspace c = true -> c = 32%N) s' /\
    (forall c, head s' = Some c -> Str.isspace c = false) /\
    (forall c, last s' = Some c -> Str.isspace c = false) /\
    clean_spaces s' = s'.
Proof.
  apply (modified_command_is_normalised
           [entry_with (pystr_of "gcc  -mno-direct-extern-access a.c ")]
           [entry_with (pystr_of "gcc a.c")] 1 0
           [(command_key,
             PyStr (pystr_of "gcc  -mno-direct-extern-access a.c "))]
           (pystr_of "gcc  -mno-direct-extern-access a.c ") the_flag).
  - vm_compute. reflexivity.
  - reflexivity.
  - reflexivity.
  - apply list_elem_of_here.
  - vm_compute. reflexivity.
Defined.

(** ** Paths *)

Module PathFacts.
Import Path.

Lemma append_cons (a : ascii) (x y : string) :
  String a x +:+ y = String a (x +:+ y).
Proof. done. Qed.

Lemma length_append (x y : string) :
  String.length (x +:+ y) = String.length x + String.length y.
Proof.
  induction x as [|a x IH]; [done|]. rewrite append_cons. simpl. by f_equal.
Qed.

Lemma append_empty (x : string) : x +:+ "" = x.
Proof. induction x as [|a x IH]; [done|]. rewrite append_cons. by f_equal. Qed.

Lemma append_assoc (x y z : string) : (x +:+ y) +:+ z = x +:+ (y +:+ z).
Proof.
  induction x as [|a x IH]; [done|]. rewrite !append_cons. by f_equal.
Qed.

Lemma append_inv_head (x y z : string) : x +:+ y = x +:+ z -> y = z.
Proof. apply String.app_inj. Qed.

Lemma substring_all (x : string) : substring 0 (String.length x) x = x.
Proof. induction x as [|a x IH]; [done|]. simpl. by f_equal. Qed.

Lemma substring_head (x y : string) :
  substring 0 (String.length x) (x +:+ y) = x.
Proof.
  induction x as [|a x IH]; [by destruct y|].
  rewrite append_cons. simpl. by f_equal.
Qed.

Lemma substring_tail (x y : string) :
  substring (String.length x) (String.length y) (x +:+ y) = y.
Proof. induction x as [|a x IH]; [apply substring_all|]. apply IH. Qed.

(** [rfind] splits the string at the last occurrence. *)
Lemma rfind_Some (c : ascii) (s : string) (i j : nat) :
  rfind c s i = Some j ->
  exists x y, s = x +:+ String c y /\ j = i + String.length x /\
              forall k, rfind c y k = None.
Proof.
  assert (Hnone : forall t k k', rfind c t k = None -> rfind c t k' = None).
  { induction t as [|a t IH]; [done|]. intros k k'. simpl.
    destruct (rfind c t (S k)) eqn:E; [done|].
    rewrite (IH _ (S k') E). by destruct (Ascii.eqb a c). }
  revert i j. induction s as [|a s IH]; [done|]. intros i j. simpl.
  destruct (rfind c s (S i)) as [j'|] eqn:E.
  - intros [= <-]. destruct (IH _ _ E) as (x & y & -> & -> & Hy).
    exists (String a x), y. split; [done|]. split; [simpl; lia|done].
  - destruct (Ascii.eqb a c) eqn:Ea; [|done]. intros [= <-].
    apply Ascii.eqb_eq in Ea as ->. exists "", s.
    split; [done|]. split; [simpl; lia|]. intros k. by apply (Hnone s (S i)).
Qed.

Lemma name_tail (path : string) : exists pre, path = pre +:+ name path.
Proof.
  unfold name. destruct (String.eqb path ".") eqn:E.
  - exists path. by rewrite append_empty.
  - destruct (rfind "/" path 0) as [i|] eqn:Ei; [|by exists ""].
    apply rfind_Some in Ei as (x & y & -> & -> & _).
    exists (x +:+ "/"). rewrite length_append. cbn [String.length plus].
    replace (String.length x + S (String.length y) - S (String.length x))
      with (String.length y) by lia.
    replace (x +:+ String "/" y) with ((x +:+ "/") +:+ y)
      by apply append_assoc.
    replace (S (String.length x)) with (String.length (x +:+ "/"))
      by (rewrite length_append; simpl; lia).
    by rewrite substring_tail.
Qed.

Lemma suffix_tail (path : string) :
  exists stem, name path = stem +:+ suffix path /\
    (suffix path = "" \/
     exists t, suffix path = String "." t /\ forall k, rfind "." t k = None).
Proof.
  unfold suffix. destruct (rfind "." (name path) 0) as [i|] eqn:Ei.
  2:{ exists (name path). rewrite append_empty. split; [done|by left]. }
  destruct (bool_decide _).
  2:{ exists (name path). rewrite append_empty. split; [done|by left]. }
  apply rfind_Some in Ei as (x & y & -> & -> & Hy).
  exists x. rewrite length_append. cbn [String.length plus].
  replace (String.length x + S (String.length y) - String.length x)
    with (String.length (String "." y)) by (simpl; lia).
  rewrite substring_tail. split; [done|]. right. by exists y.
Qed.

(** The backup path is never the input path. *)
Lemma with_suffix_other (path backup : string) :
  with_suffix path ".json.backup" = Ok backup -> backup <> path.
Proof.
  unfold with_suffix. destruct (String.eqb (name path) ""); [done|].
  intros [= <-] Heq.
  destruct (name_tail path) as [pre Hpre].
  destruct (suffix_tail path) as (stem & Hstem & Hsuffix).
  remember (suffix path) as sfx eqn:Esfx. clear Esfx.
  assert (Hpath : path = (pre +:+ stem) +:+ sfx).
  { rewrite Hpre at 1. by rewrite Hstem, append_assoc. }
  clear Hpre Hstem. subst path. rewrite length_append in Heq.
  replace (String.length (pre +:+ stem) + String.length sfx
           - String.length sfx)
    with (String.length (pre +:+ stem)) in Heq by lia.
  rewrite substring_head in Heq. apply append_inv_head in Heq.
  destruct Hsuffix as [->|(t & -> & Ht)]; [done|].
  injection Heq as <-. specialize (Ht 0). done.
Qed.

End PathFacts.

(** X14.  The backup path is the input path with its suffix replaced by
    [.json.backup], and it is never the input path itself. *)
Theorem backup_path_replaces_suffix (path backup : string) :
  Path.with_suffix path ".json.backup" = Ok backup ->
  backup <> path /\
  exists base,
    path = base +:+ Path.suffix path /\ backup = base +:+ ".json.backup".
Proof.
  intros H. split; [by apply PathFacts.with_suffix_other|].
  unfold Path.with_suffix in H.
  destruct (String.eqb (Path.name path) ""); [done|]. injection H as <-.
  destruct (PathFacts.name_tail path) as [pre Hpre].
  destruct (PathFacts.suffix_tail path) as (stem & Hstem & _).
  exists (pre +:+ stem). rewrite PathFacts.append_assoc, <- Hstem, <- Hpre.
  split; [done|]. f_equal.
  rewrite Hpre at 1 3. rewrite Hstem, <- PathFacts.append_assoc.
  rewrite PathFacts.length_append.
  replace (String.length (pre +:+ stem) + String.length (Path.suffix path)
           - String.length (Path.suffix path))
    with (String.length (pre +:+ stem)) by lia.
  apply PathFacts.substring_head.
Qed.

Lemma backup_path_replaces_suffix_witness :
  "build/compile_commands.json.backup" <> "build/compile_commands.json" /\
  exists base,
    "build/compile_commands.json"
    = base +:+ Path.suffix "build/compile_commands.json" /\
    "build/compile_commands.json.backup" = base +:+ ".json.backup".
Proof.
  apply (backup_path_replaces_suffix "build/compile_commands.json").
  reflexivity.
Defined.

(** ** Runs that fail, and what a run leaves alone *)


(** X9.  When loading fails or the loop raises, the run raises that
    exception and has written nothing: every write comes after the loop,
    so every file is as it was and the run has added no write to what
    happened. *)
Theorem failure_before_writing_changes_no_file (input_file : string)
    (output_file : option string) (w : world) (x : pyexn) :
  (json_load input_file w).1 = Raise x \/
  (exists fmt v, files w !! input_file = Some (Json fmt v) /\
                 rewrite_loaded v = Raise x) ->
  exists w',
    fix_compile_commands input_file output_file w = (Raise x, w') /\
    files w' = files w /\
    forall path content,
      Wrote path content ∈ trace w' -> Wrote path content ∈ trace w.
Proof.
  unfold fix_compile_commands. run_py.
  destruct (files w !! input_file) as [[e|e|fmt v]|] eqn:Hfile.
  - intros [[= ->]|(? & ? & [=] & _)].
    eexists. split; [done|]. split; [done|]. cbn [trace].
    intros path content Hin. by no_new_write Hin.
  - intros [[= ->]|(? & ? & [=] & _)].
    eexists. split; [done|]. split; [done|]. cbn [trace].
    intros path content Hin. by no_new_write Hin.
  - intros [[=]|(fmt' & v0 & [= _ <-] & Hrw)].
    destruct (py_len v) as [k|] eqn:Elen.
    + rewrite Hrw. eexists. split; [done|]. split; [done|].
      cbn [trace].
    intros path content Hin. by no_new_write Hin.
    + assert (x = TypeError) as -> by (destruct v; simpl in *; congruence).
      assert (py_len v = Raise TypeError) as Hlen
        by (destruct v; simpl in *; congruence).
      rewrite Hlen in Elen. injection Elen as <-.
      eexists. split; [done|]. split; [done|]. cbn [trace].
    intros path content Hin. by no_new_write Hin.
  - intros [[= ->]|(? & ? & [=] & _)].
    eexists. split; [done|]. split; [done|]. cbn [trace].
    intros path content Hin. by no_new_write Hin.
Qed.

Lemma failure_before_writing_changes_no_file_witness :
  let w := two_file_world (Json None (PyList [entry_with the_flag; PyInt 3])) in
  exists w',
    fix_compile_commands compile_commands_path None w = (Raise TypeError, w') /\
    files w' = files w /\
    forall path content,
      Wrote path content ∈ trace w' -> Wrote path content ∈ trace w.
Proof.
  apply (failure_before_writing_changes_no_file compile_commands_path None
           (two_file_world (Json None (PyList [entry_with the_flag; PyInt 3])))).
  right. exists None, (PyList [entry_with the_flag; PyInt 3]).
  split; [reflexivity|vm_compute; reflexivity].
Defined.



(** X11.  With an output path that differs from the input path the run
    makes no backup: it writes once, to the output path, which then holds
    the rewritten entries. *)
Theorem separate_output_makes_no_backup (input_file out : string) (w : world)
    (fmt : option nat) (v v' : pyval) (n : nat) :
  files w !! input_file = Some (Json fmt v) ->
  rewrite_loaded v = Ok (v', n) ->
  out <> input_file ->
  out ∉ readonly w ->
  exists w',
    fix_compile_commands input_file (Some out) w = (Ok (), w') /\
    files w' !! out = Some (Json (Some 2) v') /\
    forall path content,
      Wrote path content ∈ trace w' ->
      Wrote path content ∈ trace w \/
      path = out /\ content = Json (Some 2) v'.
Proof.
  intros Hfile Hrw Hne Hout.
  destruct (rewrite_loaded_len _ _ _ Hrw) as [k Hk].
  unfold fix_compile_commands. run_py. rewrite Hfile, Hk, Hrw.
  cbn [default]. rewrite (bool_decide_eq_false_2 _ Hne). run_py.
  rewrite (bool_decide_eq_false_2 _ Hout). run_py.
  eexists. split; [done|]. cbn [files trace].
  split; [by rewrite lookup_insert_eq|].
  intros path content Hin. no_new_write Hin; [by left|].
  apply list_elem_of_singleton in Hin. injection Hin as -> ->. by right.
Qed.

Lemma separate_output_makes_no_backup_witness :
  let w := two_file_world (Json None flagged_input) in
  let doc :=
    Json (Some 2) (PyList [entry_with (pystr_of "gcc -O2 -Wall file.c")]) in
  exists w',
    fix_compile_commands compile_commands_path (Some "build/fixed.json") w
    = (Ok (), w') /\
    files w' !! "build/fixed.json" = Some doc /\
    forall path content,
      Wrote path content ∈ trace w' ->
      Wrote path content ∈ trace w \/
      path = "build/fixed.json" /\ content = doc.
Proof.
  apply (separate_output_makes_no_backup compile_commands_path
           "build/fixed.json"
           (two_file_world (Json None flagged_input)) None flagged_input _ 1).
  - reflexivity.
  - vm_compute. reflexivity.
  - discriminate.
  - apply not_elem_of_empty.
Defined.

(** X12.  In place, with the input file write-protected and the backup
    path writable, the run writes the backup, with the rewritten entries,
    then raises [PermissionError]; the input file stays as it was. *)
Theorem readonly_input_leaves_only_backup (input_file backup : string)
    (w : world) (fmt : option nat) (v v' : pyval) (n : nat) :
  files w !! input_file = Some (Json fmt v) ->
  rewrite_loaded v = Ok (v', n) ->
  Path.with_suffix input_file ".json.backup" = Ok backup ->
  backup ∉ readonly w ->
  input_file ∈ readonly w ->
  exists w',
    fix_compile_commands input_file None w = (Raise PermissionError, w') /\
    files w' = <[backup := Json (Some 2) v']> (files w) /\
    files w' !! input_file = files w !! input_file.
Proof.
  intros Hfile Hrw Hbackup Hb Hin.
  pose proof (PathFacts.with_suffix_other _ _ Hbackup) as Hother.
  destruct (rewrite_loaded_len _ _ _ Hrw) as [k Hk].
  unfold fix_compile_commands. run_py. rewrite Hfile, Hk, Hrw, Hbackup.
  cbn [default]. rewrite bool_decide_eq_true_2 by done. run_py.
  rewrite (bool_decide_eq_false_2 _ Hb). run_py.
  rewrite (bool_decide_eq_true_2 _ Hin). eexists. split; [done|].
  cbn [files]. split; [done|]. by rewrite lookup_insert_ne.
Qed.

Lemma readonly_input_leaves_only_backup_witness :
  exists w',
    fix_compile_commands compile_commands_path None protected_world
    = (Raise PermissionError, w') /\
    files w' =
    <[backup_path :=
        Json (Some 2) (PyList [entry_with (pystr_of "gcc -O2 -Wall file.c")])]>
      (files protected_world) /\
    files w' !! compile_commands_path
    = files protected_world !! compile_commands_path.
Proof.
  apply (readonly_input_leaves_only_backup compile_commands_path backup_path
           protected_world None flagged_input _ 1).
  - reflexivity.
  - vm_compute. reflexivity.
  - reflexivity.
  - unfold protected_world. cbn [readonly].
    intros H. apply elem_of_singleton in H. discriminate H.
  - unfold protected_world. cbn [readonly].
    apply elem_of_singleton. reflexivity.
Defined.

(** X13.  After a run in place whose result holds no flag, a second run in
    place gets to the end and leaves every file as the first run left
    it. *)
Theorem second_run_in_place_changes_no_file (input_file : string)
    (w w' : world) (fmt : option nat) (entries out : list pyval) (n : nat) :
  files w !! input_file = Some (Json fmt (PyList entries)) ->
  rewrite entries = Ok (out, n) ->
  flag_free out ->
  fix_compile_commands input_file None w = (Ok (), w') ->
  exists w'',
    fix_compile_commands input_file None w' = (Ok (), w'') /\
    files w'' = files w'.
Proof.
  intros Hfile Hrw Hfree Hrun.
  apply fix_compile_commands_Ok in Hrun
    as (fmt0 & v0 & v' & k & n0 & Hfile0 & _ & Hrw0 & Hout & Hro & Hrun).
  rewrite Hfile in Hfile0. injection Hfile0 as <- <-.
  cbn [rewrite_loaded] in Hrw0. rewrite Hrw in Hrw0. injection Hrw0 as <- <-.
  cbn [default] in Hrun, Hout. rewrite bool_decide_eq_true_2 in Hrun by done.
  destruct Hrun as (backup & Hbackup & Hb & Hfiles & _).
  assert (Hsettled : rewrite_loaded (PyList out) = Ok (PyList out, 0)).
  { cbn [rewrite_loaded]. rewrite rewrite_settled; [done|].
    by apply (flag_free_settled entries out n). }
  assert (Hfile' : files w' !! input_file = Some (Json (Some 2) (PyList out))).
  { by rewrite Hfiles, lookup_insert_eq. }
  destruct (fix_compile_commands_runs input_file None w' _ _ _ 0 backup
              Hfile' Hsettled) as [w'' Hrun'];
    [by rewrite Hro|done|by rewrite Hro|].
  exists w''. split; [done|].
  apply fix_compile_commands_Ok in Hrun'
    as (fmt1 & v1 & v1' & k1 & n1 & Hfile1 & _ & Hrw1 & _ & _ & Hrun').
  rewrite Hfile' in Hfile1. injection Hfile1 as <- <-.
  rewrite Hsettled in Hrw1. injection Hrw1 as <- <-.
  cbn [default] in Hrun'. rewrite bool_decide_eq_true_2 in Hrun' by done.
  destruct Hrun' as (backup' & Hbackup' & _ & -> & _).
  rewrite Hbackup in Hbackup'. injection Hbackup' as <-.
  rewrite Hfiles. apply map_eq. intros p.
  destruct (decide (p = input_file)) as [->|Hp];
    [by rewrite !lookup_insert_eq|].
  rewrite !(lookup_insert_ne _ input_file) by done.
  destruct (decide (p = backup)) as [->|Hp'];
    [by rewrite !lookup_insert_eq|].
  by rewrite !lookup_insert_ne by done.
Qed.

Lemma second_run_in_place_changes_no_file_witness :
  let w' := (fix_compile_commands compile_commands_path None flagged_world).2 in
  exists w'',
    fix_compile_commands compile_commands_path None w' = (Ok (), w'') /\
    files w'' = files w'.
Proof.
  apply (second_run_in_place_changes_no_file compile_commands_path
           flagged_world _ None
           [entry_with (pystr_of "gcc -O2 -mno-direct-extern-access -Wall file.c")]
           [entry_with (pystr_of "gcc -O2 -Wall file.c")] 1).
  - reflexivity.
  - vm_compute. reflexivity.
  - intros [|i] e s flag Hi Hcmd Hflag; [|done].
    injection Hi as <-. injection Hcmd as <-.
    apply list_elem_of_singleton in Hflag as ->. vm_compute. reflexivity.
  - vm_compute. reflexivity.
Defined.
